(** * Busy-Light: calendar-driven smart switch service

    A shallow embedding of [calendar_busy_light.py] (and of the standalone
    [calendar_monitor.py] classifier) as state-passing programs over an
    explicit world, followed by the properties of the retry executor, the
    device controller, the calendar monitor and the orchestrating loop.

    Conventions of the embedding:
    - Python floats holding seconds ([time.time()], delays) are rationals [Q];
    - every answer of the outside world (Tuya cloud, Google Calendar, the
      network probe, [random.uniform]) is read from an [oracle], indexed by a
      counter kept in the world, so programs stay executable;
    - a call on the outside world takes no time: only [time.sleep] moves the
      clock, and the statements about elapsed time hold for any clock reading;
    - exceptions are an explicit [Raise] outcome, [try]/[except] is
      [try_except];
    - the world carries a [trace] of the observable actions of the main
      thread (sleeps, device writes, starting and stopping background
      threads); the error-flash and heartbeat threads themselves appear only
      through their alive flags. *)

From Stdlib Require Import ZArith QArith Qminmax Qround Qpower Lqa.
From Stdlib Require Import List String Bool Lia DecimalString.
Import ListNotations.

Set Implicit Arguments.

(** ** Exceptions and outcomes *)

Inductive exn : Type :=
| Exception (msg : string)
| HttpError (msg : string)
| OtherError (cls msg : string).

Definition str (e : exn) : string :=
  match e with
  | Exception m => m
  | HttpError m => m
  | OtherError _ m => m
  end.

Inductive result (A : Type) : Type :=
| Ok (a : A)
| Raise (e : exn).
Arguments Ok {A} a.
Arguments Raise {A} e.

(** ** Calendar events as the Google API returns them *)

(** A parsed ISO timestamp: wall-clock seconds and, for an aware datetime,
    its UTC offset. *)
Record datetime : Type := { wall : Q; tz : option Q }.

Inductive when : Type :=
| AtDateTime (t : datetime)   (* {'dateTime': ...} *)
| AllDay (midnight : Q)       (* {'date': ...} *)
| NoTime.                     (* neither key *)

Record event : Type := {
  summary : option string;
  transparency : option string;
  start_ : when;
  end_ : when;
  self_response : option string   (* responseStatus of the attendee marked self *)
}.

(** ** Observable actions of the main thread *)

Inductive action : Type :=
| Sleep (seconds : Q)
| SetState (on ok : bool)      (* TuyaController.set_state(on) returned ok *)
| StartErrorFlash
| StopErrorFlash
| StartHeartbeat
| StopHeartbeat
| Log (line : string).         (* the log lines that mark a change of phase *)

(** ** Program state *)

Record TuyaController : Type := {
  cloud : bool;                           (* self.cloud is not None *)
  device : bool;                          (* self.device is not None *)
  last_state : option bool;
  connection_verified : bool;
  last_successful_connection : option Q;
  use_cloud_api : bool
}.

Record GoogleCalendarMonitor : Type := {
  service : bool;                         (* self.service is not None *)
  last_successful_auth : option Q;
  credentials : bool                      (* self.credentials is not None *)
}.

Record BusyLightService : Type := {
  is_busy : bool;
  error_flash_alive : bool;               (* error_flash_thread.is_alive() *)
  heartbeat_alive : bool;
  running : bool;
  lead_time : Z;
  poll_interval : Z
}.

Record world : Type := {
  clock : Q;                 (* time.time() *)
  draws : nat;               (* random numbers drawn so far *)
  calls : nat;               (* answers of the outside world consumed so far *)
  trace : list action;
  tuya : TuyaController;
  calendar : GoogleCalendarMonitor;
  svc : BusyLightService
}.

(** ** Answers of the outside world *)

Record cloud_status : Type := {
  success : bool;
  result_items : list (string * option bool)   (* (code, value) *)
}.

Record oracle : Type := {
  jitter : nat -> Q;                                (* random.random() *)
  network : nat -> bool;                            (* socket.create_connection *)
  cloud_getstatus : nat -> result cloud_status;
  cloud_sendcommand : nat -> bool -> result bool;   (* result.get('success') *)
  device_status : nat -> result (option (option bool));  (* status['dps']['1'] *)
  device_set_status : nat -> bool -> result bool;   (* 'Error' not in str(result) *)
  google_auth : nat -> result unit;                 (* the token dance of _authenticate *)
  creds_expired : nat -> bool;                      (* self.credentials.expired *)
  events_list : nat -> Q -> Q -> result (list event)
}.

(** ** The state-and-exception monad *)

Definition M (A : Type) : Type := world -> result A * world.

Definition ret {A} (a : A) : M A := fun w => (Ok a, w).

Definition raise {A} (e : exn) : M A := fun w => (Raise e, w).

Definition bind {A B} (m : M A) (k : A -> M B) : M B :=
  fun w => match m w with
           | (Ok a, w') => k a w'
           | (Raise e, w') => (Raise e, w')
           end.

Definition try_except {A} (m : M A) (handler : exn -> M A) : M A :=
  fun w => match m w with
           | (Ok a, w') => (Ok a, w')
           | (Raise e, w') => handler e w'
           end.

Declare Scope prog_scope.
Delimit Scope prog_scope with prog.
Notation "x <- m ;; k" := (bind m (fun x => k))
  (at level 100, m at next level, right associativity) : prog_scope.
Notation "m ;; k" := (bind m (fun _ => k))
  (at level 100, right associativity) : prog_scope.
Open Scope prog_scope.

Definition gets {A} (f : world -> A) : M A := fun w => (Ok (f w), w).

Definition modify (f : world -> world) : M unit := fun w => (Ok tt, f w).

(** [for i in range(n)] whose body may [return]: [Some r] leaves the loop
    with [r], [None] goes on with the next index. *)
Fixpoint for_from {R} (i n : nat) (body : nat -> M (option R)) : M (option R) :=
  match n with
  | O => ret None
  | S n' => r <- body i ;;
            match r with
            | Some v => ret (Some v)
            | None => for_from (S i) n' body
            end
  end.

Definition for_range {R} (n : nat) (body : nat -> M (option R)) : M (option R) :=
  for_from 0 n body.

(** [for x in xs] with the same convention. *)
Fixpoint for_each {X R} (xs : list X) (body : X -> M (option R)) : M (option R) :=
  match xs with
  | [] => ret None
  | x :: rest => r <- body x ;;
                 match r with
                 | Some v => ret (Some v)
                 | None => for_each rest body
                 end
  end.

(** ** World updates *)

Definition with_trace (f : list action -> list action) (w : world) : world :=
  {| clock := clock w; draws := draws w; calls := calls w; trace := f (trace w);
     tuya := tuya w; calendar := calendar w; svc := svc w |}.

Definition with_clock (f : Q -> Q) (w : world) : world :=
  {| clock := f (clock w); draws := draws w; calls := calls w; trace := trace w;
     tuya := tuya w; calendar := calendar w; svc := svc w |}.

Definition with_draws (f : nat -> nat) (w : world) : world :=
  {| clock := clock w; draws := f (draws w); calls := calls w; trace := trace w;
     tuya := tuya w; calendar := calendar w; svc := svc w |}.

Definition with_calls (f : nat -> nat) (w : world) : world :=
  {| clock := clock w; draws := draws w; calls := f (calls w); trace := trace w;
     tuya := tuya w; calendar := calendar w; svc := svc w |}.

Definition with_tuya (f : TuyaController -> TuyaController) (w : world) : world :=
  {| clock := clock w; draws := draws w; calls := calls w; trace := trace w;
     tuya := f (tuya w); calendar := calendar w; svc := svc w |}.

Definition with_calendar (f : GoogleCalendarMonitor -> GoogleCalendarMonitor)
  (w : world) : world :=
  {| clock := clock w; draws := draws w; calls := calls w; trace := trace w;
     tuya := tuya w; calendar := f (calendar w); svc := svc w |}.

Definition with_svc (f : BusyLightService -> BusyLightService) (w : world) : world :=
  {| clock := clock w; draws := draws w; calls := calls w; trace := trace w;
     tuya := tuya w; calendar := calendar w; svc := f (svc w) |}.

Definition Qlt_bool (x y : Q) : bool := negb (Qle_bool y x).

Definition emit (a : action) : M unit := modify (with_trace (fun t => t ++ [a])).

(** [time.sleep(d)] for a pause it accepts, neither negative nor beyond its
    range: the clock advances and the sleep is recorded. *)
Definition sleep (d : Q) : M unit :=
  modify (with_clock (fun c => c + d)) ;; emit (Sleep d).

Definition time_time : M Q := gets clock.

(** One answer of the outside world: the oracle entry at the current call
    index, which is then consumed. *)
Definition ask {A} (answer : nat -> result A) : M A :=
  fun w => (answer (calls w), with_calls S w).

(** A scripted operation: its n-th invocation (counted by [calls]) has the
    outcome the script gives, and it has no other effect. *)
Definition scripted {A} (script : nat -> result A) : M A := ask script.

Definition string_of_Z (z : Z) : string := NilZero.string_of_int (Z.to_int z).

Section Program.

Variable env : oracle.

(** [random.uniform(a, b)] is [a + (b - a) * random.random()]. *)
Definition random_uniform (a b : Q) : M Q :=
  fun w => (Ok (a + (b - a) * jitter env (draws w)), with_draws S w).

(** *** NetworkUtils *)

Definition is_network_available : M bool :=
  fun w => (Ok (network env (calls w)), with_calls S w).

Definition backoff_delay (initial_delay max_delay : Q) (attempt : nat) (j : Q) : Q :=
  Qmin (initial_delay * 2 ^ Z.of_nat attempt + j) max_delay.

(** [initial_delay * (2 ** attempt)] multiplies a float by an integer: the
    integer is converted first, and from [2 ** 1024] on the conversion
    raises. *)
Definition power_overflows (attempt : nat) : bool := (1024 <=? attempt)%nat.

(** The body of the [for attempt in range(max_retries)] loop.  An exception
    raised while the delay is computed leaves the function. *)
Definition retry_attempt {A} (func : M A) (max_retries : Z)
  (initial_delay max_delay : Q) (attempt : nat) : M (option A) :=
  try_except (v <- func ;; ret (Some v))
    (fun e =>
       if (Z.of_nat attempt =? max_retries - 1)%Z then raise e
       else if power_overflows attempt then
         raise (OtherError "OverflowError" "int too large to convert to float")
       else
         j <- random_uniform 0 1 ;;
         sleep (backoff_delay initial_delay max_delay attempt j) ;;
         ret None).

Definition retry_with_exponential_backoff {A} (func : M A)
  (max_retries : Z) (initial_delay max_delay : Q) : M A :=
  r <- for_range (Z.to_nat max_retries)
         (retry_attempt func max_retries initial_delay max_delay) ;;
  match r with
  | Some v => ret v
  | None => raise (Exception ("All " ++ string_of_Z max_retries
                                ++ " retry attempts failed"))
  end.

(** [while time.time() - start_time < max_wait]: every round that does not
    return sleeps [check_interval], so for a positive interval
    [max_wait / check_interval] rounds, rounded up, and one more test of the
    condition end the loop.  For an interval that is not positive the rounds
    counted here are not those of the code. *)
Fixpoint wait_for_network_loop (rounds : nat) (start_time max_wait check_interval : Q)
  : M bool :=
  match rounds with
  | O => ret false
  | S rounds' =>
      now <- time_time ;;
      if Qlt_bool (now - start_time) max_wait then
        up <- is_network_available ;;
        if up then ret true
        else sleep check_interval ;;
             wait_for_network_loop rounds' start_time max_wait check_interval
      else ret false
  end.

Definition wait_for_network (max_wait check_interval : Q) : M bool :=
  start_time <- time_time ;;
  wait_for_network_loop (S (Z.to_nat (Qceiling (max_wait / check_interval))))
    start_time max_wait check_interval.

(** *** TuyaController *)

Definition set_cloud (t : TuyaController) : TuyaController :=
  {| cloud := true; device := device t; last_state := last_state t;
     connection_verified := connection_verified t;
     last_successful_connection := last_successful_connection t;
     use_cloud_api := use_cloud_api t |}.

Definition set_device (t : TuyaController) : TuyaController :=
  {| cloud := cloud t; device := true; last_state := last_state t;
     connection_verified := connection_verified t;
     last_successful_connection := last_successful_connection t;
     use_cloud_api := use_cloud_api t |}.

Definition set_last_state (s : bool) (t : TuyaController) : TuyaController :=
  {| cloud := cloud t; device := device t; last_state := Some s;
     connection_verified := connection_verified t;
     last_successful_connection := last_successful_connection t;
     use_cloud_api := use_cloud_api t |}.

Definition set_connection_verified (b : bool) (t : TuyaController) : TuyaController :=
  {| cloud := cloud t; device := device t; last_state := last_state t;
     connection_verified := b;
     last_successful_connection := last_successful_connection t;
     use_cloud_api := use_cloud_api t |}.

Definition set_last_successful_connection (now : Q) (t : TuyaController)
  : TuyaController :=
  {| cloud := cloud t; device := device t; last_state := last_state t;
     connection_verified := connection_verified t;
     last_successful_connection := Some now;
     use_cloud_api := use_cloud_api t |}.

(** The scan of [status['result']] for the item whose code is 'switch'. *)
Fixpoint find_switch (items : list (string * option bool)) : option bool :=
  match items with
  | [] => None
  | (code, value) :: rest =>
      if String.eqb code "switch" then value else find_switch rest
  end.

Definition nonempty {X} (l : list X) : bool :=
  match l with [] => false | _ :: _ => true end.

Definition _connect : M bool :=
  t <- gets tuya ;;
  if use_cloud_api t then
    modify (with_tuya set_cloud) ;;
    status <- ask (cloud_getstatus env) ;;
    if success status && nonempty (result_items status) then
      match find_switch (result_items status) with
      | Some switch_status =>
          modify (with_tuya (set_connection_verified true)) ;;
          modify (with_tuya (set_last_state switch_status)) ;;
          now <- time_time ;;
          modify (with_tuya (set_last_successful_connection now)) ;;
          ret true
      | None => raise (Exception "Switch status not found in cloud response")
      end
    else raise (Exception "Invalid cloud device status")
  else
    modify (with_tuya set_device) ;;
    status <- ask (device_status env) ;;
    match status with
    | Some (Some v) =>
        modify (with_tuya (set_connection_verified true)) ;;
        modify (with_tuya (set_last_state v)) ;;
        now <- time_time ;;
        modify (with_tuya (set_last_successful_connection now)) ;;
        ret true
    | _ =>
        modify (with_tuya (set_connection_verified false)) ;;
        raise (Exception "Invalid device status")
    end.

Definition connect : M bool :=
  try_except (retry_with_exponential_backoff _connect 3 1 60)
    (fun _ => modify (with_tuya (set_connection_verified false)) ;; ret false).

(** Python truthiness of an optional timestamp: [None] and [0.0] are false. *)
Definition truthy (o : option Q) : bool :=
  match o with
  | Some t => negb (Qeq_bool t 0)
  | None => false
  end.

(** The guard of [ensure_connection]. *)
Definition connection_stale (t : TuyaController) (now : Q) : bool :=
  negb (connection_verified t)
  || negb (truthy (last_successful_connection t))
  || match last_successful_connection t with
     | Some last => Qlt_bool 300 (now - last)
     | None => true
     end.

Definition ensure_connection : M bool :=
  t <- gets tuya ;;
  now <- time_time ;;
  if connection_stale t now then connect
  else
    try_except
      (if use_cloud_api t && cloud t then
         status <- ask (cloud_getstatus env) ;;
         if success status then
           now' <- time_time ;;
           modify (with_tuya (set_last_successful_connection now')) ;;
           ret true
         else connect
       else if device t then
         status <- ask (device_status env) ;;
         match status with
         | Some _ =>
             now' <- time_time ;;
             modify (with_tuya (set_last_successful_connection now')) ;;
             ret true
         | None => connect
         end
       else connect)
      (fun _ => connect).

Definition _set_state (state : bool) : M bool :=
  t <- gets tuya ;;
  if use_cloud_api t && cloud t then
    ok <- ask (fun n => cloud_sendcommand env n state) ;;
    if ok then modify (with_tuya (set_last_state state)) ;; ret true
    else raise (Exception "Cloud device returned error")
  else if device t then
    ok <- ask (fun n => device_set_status env n state) ;;
    if ok then modify (with_tuya (set_last_state state)) ;; ret true
    else raise (Exception "Local device returned error")
  else raise (OtherError "AttributeError"
                "'NoneType' object has no attribute 'set_status'").

(** The body of [set_state]; [set_state] itself also records the call and
    its result in the trace. *)
Definition set_state_body (state : bool) : M bool :=
  connected <- ensure_connection ;;
  if negb connected then ret false
  else
    try_except (retry_with_exponential_backoff (_set_state state) 3 1 60)
      (fun _ => modify (with_tuya (set_connection_verified false)) ;; ret false).

Definition set_state (state : bool) : M bool :=
  ok <- set_state_body state ;;
  emit (SetState state ok) ;;
  ret ok.

(** One pass of the loop of [flash]: on, wait, off, wait; a failed call
    returns [False] from [flash]. *)
Definition flash_pulse (duration : Q) : M (option bool) :=
  on <- set_state true ;;
  if negb on then ret (Some false)
  else
    sleep duration ;;
    off <- set_state false ;;
    if negb off then ret (Some false)
    else sleep duration ;; ret None.

Definition flash (times : Z) (duration : Q) : M bool :=
  t <- gets tuya ;;
  if negb (cloud t || device t) then ret false
  else
    let original_state := last_state t in
    try_except
      (r <- for_range (Z.to_nat times) (fun _ => flash_pulse duration) ;;
       match r with
       | Some b => ret b
       | None =>
           match original_state with
           | Some s => set_state s ;; ret true
           | None => ret true
           end
       end)
      (fun _ => ret false).

(** *** GoogleCalendarMonitor *)

Definition set_authenticated (now : Q) (c : GoogleCalendarMonitor)
  : GoogleCalendarMonitor :=
  {| service := true; last_successful_auth := Some now; credentials := true |}.

(** The token handling of [_authenticate] (files, refresh) is one answer of
    the outside world: it raises, or the service is built. *)
Definition _authenticate : M bool :=
  ask (google_auth env) ;;
  now <- time_time ;;
  modify (with_calendar (set_authenticated now)) ;;
  ret true.

Definition authenticate : M bool :=
  try_except (retry_with_exponential_backoff _authenticate 3 1 60)
    (fun _ => ret false).

(** The first guard of [ensure_authenticated]. *)
Definition auth_stale (c : GoogleCalendarMonitor) (now : Q) : bool :=
  negb (service c)
  || negb (truthy (last_successful_auth c))
  || match last_successful_auth c with
     | Some last => Qlt_bool 1800 (now - last)
     | None => true
     end.

Definition ensure_authenticated : M bool :=
  c <- gets calendar ;;
  now <- time_time ;;
  if auth_stale c now then authenticate
  else if credentials c then
    expired <- ask (fun n => Ok (creds_expired env n)) ;;
    if expired then authenticate else ret true
  else ret true.

Definition start_of_day (now : Q) : Q :=
  inject_Z (Qfloor (now / 86400)) * 86400.

Definition get_todays_events : M (list event) :=
  c <- gets calendar ;;
  if negb (service c) then ret []
  else
    try_except
      (now <- time_time ;;
       ask (fun n => events_list env n (start_of_day now)
                       (start_of_day now + 86400 - (1 # 1000000))))
      (fun _ => ret []).

(** [event.get('transparency', 'opaque') == 'opaque']. *)
Definition is_opaque (e : event) : bool :=
  String.eqb (match transparency e with Some t => t | None => "opaque" end)
    "opaque".

(** [event.get('summary', default)]. *)
Definition summary_or (default : string) (e : event) : string :=
  match summary e with Some s => s | None => default end.

(** The body of the loop over the events of [_check_busy_soon]. *)
Definition scan_opaque (e : event) : M (option (bool * option string)) :=
  if is_opaque e then ret (Some (true, Some (summary_or "Busy" e)))
  else ret None.

(** The window [now, now + lead] is taken to lie within what a [datetime]
    holds. *)
Definition _check_busy_soon (lead_time_minutes : Z) : M (bool * option string) :=
  now <- time_time ;;
  let check_until := now + inject_Z lead_time_minutes * 60 in
  events <- ask (fun n => events_list env n now check_until) ;;
  r <- for_each events scan_opaque ;;
  match r with
  | Some found => ret found
  | None => ret (false, None)
  end.

Definition is_busy_soon (lead_time_minutes : Z) : M (bool * option string) :=
  authenticated <- ensure_authenticated ;;
  if negb authenticated then ret (false, Some "Authentication failed"%string)
  else
    try_except
      (retry_with_exponential_backoff (_check_busy_soon lead_time_minutes) 3 1 60)
      (fun e =>
         match e with
         | HttpError _ => ret (false, Some ("API Error: " ++ str e)%string)
         | _ => ret (false, Some ("Error: " ++ str e)%string)
         end).

Definition lift {A} (r : result A) : M A := fun w => (r, w).

(** [datetime.fromisoformat] on the dateTime, else on the date; with neither
    key the [.replace] on [None] raises. *)
Definition parse_when (t : when) : result datetime :=
  match t with
  | AtDateTime d => Ok d
  | AllDay midnight => Ok {| wall := midnight; tz := None |}
  | NoTime => Raise (OtherError "AttributeError"
                       "'NoneType' object has no attribute 'replace'")
  end.

(** [a <= b] on datetimes: aware ones compare as instants, naive ones by
    wall clock, a mixed pair raises. *)
Definition datetime_le (a b : datetime) : result bool :=
  match tz a, tz b with
  | Some oa, Some ob => Ok (Qle_bool (wall a - oa) (wall b - ob))
  | None, None => Ok (Qle_bool (wall a) (wall b))
  | _, _ => Raise (OtherError "TypeError"
                     "can't compare offset-naive and offset-aware datetimes")
  end.

(** The body of the loop over the events of [_check_currently_busy]. *)
Definition scan_current (now : Q) (e : event) : M (option (bool * option string)) :=
  start_dt <- lift (parse_when (start_ e)) ;;
  end_dt <- lift (parse_when (end_ e)) ;;
  let now_dt := {| wall := now; tz := tz start_dt |} in
  started <- lift (datetime_le start_dt now_dt) ;;
  inside <- (if started then lift (datetime_le now_dt end_dt) else ret false) ;;
  if inside then
    if is_opaque e then ret (Some (true, Some (summary_or "Busy" e)))
    else ret None
  else ret None.

Definition _check_currently_busy : M (bool * option string) :=
  now <- time_time ;;
  events <- ask (fun n => events_list env n now now) ;;
  r <- for_each events (scan_current now) ;;
  match r with
  | Some found => ret found
  | None => ret (false, None)
  end.

Definition is_currently_busy : M (bool * option string) :=
  authenticated <- ensure_authenticated ;;
  if negb authenticated then ret (false, Some "Authentication failed"%string)
  else
    try_except (retry_with_exponential_backoff _check_currently_busy 3 1 60)
      (fun e => ret (false, Some ("Error: " ++ str e)%string)).

(** *** BusyLightService *)

Definition set_is_busy (b : bool) (s : BusyLightService) : BusyLightService :=
  {| is_busy := b; error_flash_alive := error_flash_alive s;
     heartbeat_alive := heartbeat_alive s; running := running s;
     lead_time := lead_time s; poll_interval := poll_interval s |}.

Definition set_error_flash_alive (b : bool) (s : BusyLightService)
  : BusyLightService :=
  {| is_busy := is_busy s; error_flash_alive := b;
     heartbeat_alive := heartbeat_alive s; running := running s;
     lead_time := lead_time s; poll_interval := poll_interval s |}.

Definition set_heartbeat_alive (b : bool) (s : BusyLightService)
  : BusyLightService :=
  {| is_busy := is_busy s; error_flash_alive := error_flash_alive s;
     heartbeat_alive := b; running := running s;
     lead_time := lead_time s; poll_interval := poll_interval s |}.

(** Python's [a or b] on optional strings: [None] and [''] are falsy. *)
Definition or_else (a b : option string) : option string :=
  match a with
  | Some s => if String.eqb s "" then b else a
  | None => b
  end.

Definition decide_and_set_at_startup : M unit :=
  s <- gets svc ;;
  soon <- is_busy_soon (lead_time s) ;;
  current <- is_currently_busy ;;
  let should_be_on := fst soon || fst current in
  if should_be_on then
    modify (with_svc (set_is_busy true)) ;;
    set_state true ;; ret tt
  else
    modify (with_svc (set_is_busy false)) ;;
    set_state false ;; ret tt.

Definition startup_sequence : M bool :=
  connected <- connect ;;
  if negb connected then ret false
  else
    authenticated <- authenticate ;;
    if negb authenticated then ret false
    else
      flash 3 1 ;;
      try_except decide_and_set_at_startup
        (fun _ => modify (with_svc (set_is_busy false)) ;;
                  set_state false ;; ret tt) ;;
      ret true.

Definition start_heartbeat_monitor : M unit :=
  s <- gets svc ;;
  if heartbeat_alive s then ret tt
  else modify (with_svc (set_heartbeat_alive true)) ;; emit StartHeartbeat.

Definition start_error_flash : M unit :=
  s <- gets svc ;;
  if error_flash_alive s then ret tt
  else modify (with_svc (set_error_flash_alive true)) ;; emit StartErrorFlash.

(** Setting the stop event ends [flash_error] at its next check; the join is
    taken to succeed. *)
Definition stop_error_flash : M unit :=
  s <- gets svc ;;
  if error_flash_alive s then
    emit StopErrorFlash ;; modify (with_svc (set_error_flash_alive false))
  else ret tt.

Definition log_daily_events : M unit :=
  try_except (get_todays_events ;; ret tt) (fun _ => ret tt).

(** [60 - now.second - now.microsecond / 1000000]. *)
Definition seconds_until_next_minute (now : Q) : Q :=
  60 - (now - inject_Z (Qfloor (now / 60)) * 60).

(** How one pass through the body of the [while] loop ended. *)
Inductive tick_result : Type :=
| TickOffline                                    (* the [continue] *)
| TickDone (should_be_on : bool) (current_event_name : option string)
| TickFailed (e : exn).                          (* the [except] *)

(** The connectivity check that opens the loop body; [true] is the
    [continue] taken when the network stays down. *)
Definition network_gate : M bool :=
  up <- is_network_available ;;
  if negb up then
    back <- wait_for_network 300 10 ;;
    if negb back then
      start_error_flash ;;
      s <- gets svc ;;
      sleep (inject_Z (poll_interval s)) ;;
      ret true
    else connect ;; authenticate ;; ret false
  else ret false.

(** "Update light state if changed". *)
Definition update_light (should_be_on : bool) : M unit :=
  s <- gets svc ;;
  if negb (Bool.eqb should_be_on (is_busy s)) then
    modify (with_svc (set_is_busy should_be_on)) ;;
    if should_be_on then set_state true ;; ret tt
    else set_state false ;; ret tt
  else ret tt.

Definition tick : M tick_result :=
  try_except
    (offline <- network_gate ;;
     if offline : bool then ret TickOffline
     else
       log_daily_events ;;
       s <- gets svc ;;
       soon <- is_busy_soon (lead_time s) ;;
       current <- is_currently_busy ;;
       let should_be_on := fst soon || fst current in
       let current_event_name := or_else (snd soon) (snd current) in
       update_light should_be_on ;;
       stop_error_flash ;;
       now <- time_time ;;
       sleep (seconds_until_next_minute now) ;;
       ret (TickDone should_be_on current_event_name))
    (fun e =>
       start_error_flash ;;
       s <- gets svc ;;
       sleep (inject_Z (poll_interval s)) ;;
       ret (TickFailed e)).

(** [while self.running], cut after [ticks] passes. *)
Fixpoint main_loop (ticks : nat) : M unit :=
  match ticks with
  | 0%nat => ret tt
  | S ticks' =>
      s <- gets svc ;;
      if running s then tick ;; main_loop ticks' else ret tt
  end.

Definition run (ticks : nat) : M unit :=
  started <- startup_sequence ;;
  if negb started then
    emit (Log "Startup failed - starting error flash") ;;
    start_error_flash
  else
    start_heartbeat_monitor ;;
    emit (Log "Starting monitoring loop (checking on the minute)") ;;
    now <- time_time ;;
    (if Qlt_bool 1 (seconds_until_next_minute now)
     then sleep (seconds_until_next_minute now) else ret tt) ;;
    main_loop ticks.

Definition stop_heartbeat_monitor : M unit :=
  s <- gets svc ;;
  if heartbeat_alive s then
    emit StopHeartbeat ;; modify (with_svc (set_heartbeat_alive false))
  else ret tt.

Definition set_running (b : bool) (s : BusyLightService) : BusyLightService :=
  {| is_busy := is_busy s; error_flash_alive := error_flash_alive s;
     heartbeat_alive := heartbeat_alive s; running := b;
     lead_time := lead_time s; poll_interval := poll_interval s |}.

Definition stop : M unit :=
  modify (with_svc (set_running false)) ;;
  stop_error_flash ;;
  stop_heartbeat_monitor ;;
  t <- gets tuya ;;
  if connection_verified t then set_state false ;; ret tt else ret tt.

(** *** calendar_monitor.py

    The filter of [get_calendar_status] that builds [busy_events]: all-day
    events, declined events and transparent events are skipped. *)

Definition monitor_keeps (e : event) : bool :=
  match start_ e with
  | AtDateTime _ =>
      match self_response e with
      | Some status => negb (String.eqb status "declined")
      | None => true
      end
      && negb (String.eqb
                 (match transparency e with Some t => t | None => "opaque" end)
                 "transparent")
  | _ => false
  end.

Definition monitor_is_busy (events : list event) : bool :=
  nonempty (filter monitor_keeps events).

End Program.

(** ** Sample inputs

    An outside world in which every call succeeds, and the state of a
    service that has just been constructed. *)

Definition calm : oracle :=
  {| jitter := fun _ => 1 # 2;
     network := fun _ => true;
     cloud_getstatus := fun _ =>
       Ok {| success := true; result_items := [("switch"%string, Some false)] |};
     cloud_sendcommand := fun _ _ => Ok true;
     device_status := fun _ => Ok None;
     device_set_status := fun _ _ => Ok true;
     google_auth := fun _ => Ok tt;
     creds_expired := fun _ => false;
     events_list := fun _ _ _ => Ok [] |}.

Definition fresh_tuya : TuyaController :=
  {| cloud := false; device := false; last_state := None;
     connection_verified := false; last_successful_connection := None;
     use_cloud_api := true |}.

Definition fresh_calendar : GoogleCalendarMonitor :=
  {| service := false; last_successful_auth := None; credentials := false |}.

Definition fresh_service : BusyLightService :=
  {| is_busy := false; error_flash_alive := false; heartbeat_alive := false;
     running := true; lead_time := 2; poll_interval := 30 |}.

Definition boot : world :=
  {| clock := 1000; draws := 0; calls := 0; trace := [];
     tuya := fresh_tuya; calendar := fresh_calendar; svc := fresh_service |}.

(** The device after a successful [connect]: switch off. *)
Definition linked_tuya : TuyaController :=
  {| cloud := true; device := false; last_state := Some false;
     connection_verified := true; last_successful_connection := Some 1000;
     use_cloud_api := true |}.

Definition signed_in : GoogleCalendarMonitor :=
  {| service := true; last_successful_auth := Some 1000; credentials := true |}.

(** A connected service, free, no background thread running. *)
Definition linked : world :=
  {| clock := 1000; draws := 0; calls := 0; trace := [];
     tuya := linked_tuya; calendar := signed_in; svc := fresh_service |}.

(** The same while the error-flash thread is running. *)
Definition degraded : world :=
  with_svc (set_error_flash_alive true) linked.

Definition standup : event :=
  {| summary := Some "Standup"%string; transparency := None;
     start_ := AtDateTime {| wall := 1060; tz := Some 0 |};
     end_ := AtDateTime {| wall := 2860; tz := Some 0 |};
     self_response := None |}.

(** The calm world with one opaque meeting on the calendar. *)
Definition meeting : oracle :=
  {| jitter := jitter calm; network := network calm;
     cloud_getstatus := cloud_getstatus calm;
     cloud_sendcommand := cloud_sendcommand calm;
     device_status := device_status calm;
     device_set_status := device_set_status calm;
     google_auth := google_auth calm;
     creds_expired := creds_expired calm;
     events_list := fun _ _ _ => Ok [standup] |}.

Definition review : event :=
  {| summary := Some "Review"%string; transparency := Some "opaque"%string;
     start_ := AtDateTime {| wall := 1090; tz := Some 0 |};
     end_ := AtDateTime {| wall := 4690; tz := Some 0 |};
     self_response := Some "declined"%string |}.

Definition lunch : event :=
  {| summary := Some "Lunch"%string; transparency := Some "transparent"%string;
     start_ := AtDateTime {| wall := 900; tz := Some 0 |};
     end_ := AtDateTime {| wall := 4500; tz := Some 0 |};
     self_response := None |}.

(** The calm world with two opaque meetings in the window. *)
Definition crowded : oracle :=
  {| jitter := jitter calm; network := network calm;
     cloud_getstatus := cloud_getstatus calm;
     cloud_sendcommand := cloud_sendcommand calm;
     device_status := device_status calm;
     device_set_status := device_set_status calm;
     google_auth := google_auth calm;
     creds_expired := creds_expired calm;
     events_list := fun _ _ _ => Ok [lunch; standup; review] |}.

(** The calm world with only a transparent event, which is going on. *)
Definition leisurely : oracle :=
  {| jitter := jitter calm; network := network calm;
     cloud_getstatus := cloud_getstatus calm;
     cloud_sendcommand := cloud_sendcommand calm;
     device_status := device_status calm;
     device_set_status := device_set_status calm;
     google_auth := google_auth calm;
     creds_expired := creds_expired calm;
     events_list := fun _ _ _ => Ok [lunch] |}.

(** The calm world with a cloud that describes the switch on the first
    request only: later answers report success without any item. *)
Definition terse : oracle :=
  {| jitter := jitter calm; network := network calm;
     cloud_getstatus := fun n =>
       if (n =? 0)%nat
       then Ok {| success := true; result_items := [("switch"%string, Some false)] |}
       else Ok {| success := true; result_items := [] |};
     cloud_sendcommand := cloud_sendcommand calm;
     device_status := device_status calm;
     device_set_status := device_set_status calm;
     google_auth := google_auth calm;
     creds_expired := creds_expired calm;
     events_list := events_list calm |}.

(** A meeting from 10:00 to 11:00 at UTC+2, that is from 08:00 to 09:00 UTC. *)
Definition abroad : event :=
  {| summary := Some "Call"%string; transparency := None;
     start_ := AtDateTime {| wall := 36000; tz := Some 7200 |};
     end_ := AtDateTime {| wall := 39600; tz := Some 7200 |};
     self_response := None |}.


(** An outside world in which nothing answers. *)
Definition dead : oracle :=
  {| jitter := fun _ => 1 # 2;
     network := fun _ => false;
     cloud_getstatus := fun _ => Raise (Exception "unreachable");
     cloud_sendcommand := fun _ _ => Raise (Exception "unreachable");
     device_status := fun _ => Raise (Exception "unreachable");
     device_set_status := fun _ _ => Raise (Exception "unreachable");
     google_auth := fun _ => Raise (Exception "unreachable");
     creds_expired := fun _ => true;
     events_list := fun _ _ _ => Raise (HttpError "unreachable") |}.

(** An operation that fails twice and then returns 7. *)
Definition flaky : nat -> result nat :=
  fun n => if (n <? 2)%nat then Raise (Exception "timeout") else Ok 7%nat.

(** An operation that never succeeds. *)
Definition hopeless : nat -> result nat :=
  fun _ => Raise (Exception "timeout").


(** ** Vocabulary of the statements *)

(** Delays of consecutive attempts, starting at attempt [i], for the given
    jitter samples. *)
Fixpoint delays_from (initial_delay max_delay : Q) (i : nat) (js : list Q) : list Q :=
  match js with
  | [] => []
  | j :: rest =>
      backoff_delay initial_delay max_delay i j
      :: delays_from initial_delay max_delay (S i) rest
  end.

(** The samples [random.uniform(0, 1)] yields from draw [d] on. *)
Definition samples (env : oracle) (d n : nat) : list Q :=
  map (fun x => 0 + (1 - 0) * jitter env (d + x)) (seq 0 n).

Definition unit_interval (j : Q) : Prop := 0 <= j /\ j < 1.

(** The delay before retry [i] (0-indexed) in the words of the
    specification: [min (initialDelay * 2^i + j, maxDelay)] for some jitter
    [j] with [0 <= j < 1]. *)
Definition is_backoff_delay (initial_delay max_delay : Q) (i : nat) (d : Q) : Prop :=
  exists j : Q,
    0 <= j /\ j < 1
    /\ d = Qmin (initial_delay * 2 ^ Z.of_nat i + j) max_delay.

(** The longest pause [time.sleep] takes, in whole seconds (its argument is
    turned into a signed 64-bit count of nanoseconds). *)
Definition sleep_max : Q := 9223372036.

(** A pause [time.sleep] accepts: not negative, not beyond its range. *)
Definition sleepable (d : Q) : Prop := 0 <= d /\ d <= sleep_max.

(** A retry policy as the specification defines it: at least one attempt, a
    positive initial delay and a maximal delay not below it, which
    [time.sleep] can take. *)
Definition valid_policy (max_retries : Z) (initial_delay max_delay : Q) : Prop :=
  (1 <= max_retries)%Z
  /\ 0 < initial_delay
  /\ initial_delay <= max_delay
  /\ max_delay <= sleep_max.

(** The sleeps [ds] are the backoff delays of retries 0, 1, ... in turn. *)
Definition backoff_sleeps (initial_delay max_delay : Q) (ds : list Q) : Prop :=
  forall i : nat, (i < List.length ds)%nat ->
    is_backoff_delay initial_delay max_delay i (nth i ds 0)
    /\ sleepable (nth i ds 0).


(** The reading of the exhaustion rule under which the caller receives a
    wrapper distinct from the operation's own last failure. *)
Definition exhaustion_is_wrapped : Prop :=
  forall (env : oracle) (script : nat -> result nat) (max_retries : Z)
         (initial_delay max_delay : Q) (failure : nat -> exn) (w : world),
    (1 <= max_retries)%Z ->
    (forall x, script (calls w + x)%nat = Raise (failure x)) ->
    exists (w' : world) (wrapped : exn),
      retry_with_exponential_backoff env (scripted script)
        max_retries initial_delay max_delay w = (Raise wrapped, w')
      /\ calls w' = (calls w + Z.to_nat max_retries)%nat
      /\ wrapped <> failure (Z.to_nat max_retries - 1)%nat.

Definition is_sleep (a : action) : bool :=
  match a with Sleep _ => true | _ => false end.

(** The trace without its sleeps. *)
Definition visible (t : list action) : list action :=
  filter (fun a => negb (is_sleep a)) t.

(** The actions recorded between two worlds of one run. *)
Definition since (w w' : world) : list action :=
  skipn (List.length (trace w)) (trace w').

(** Between [w] and [w'] the actions [V] were recorded, sleeps aside. *)
Definition emits (V : list action) (w w' : world) : Prop :=
  exists T, trace w' = trace w ++ T /\ visible T = V.

(** [n] complete on/off pairs of successful device writes. *)
Fixpoint pulses (n : nat) : list action :=
  match n with
  | O => []
  | S n' => SetState true true :: SetState false true :: pulses n'
  end.

(** A pair cut short by a failed write. *)
Inductive aborted_pulse : list action -> Prop :=
| abort_on : aborted_pulse [SetState true false]
| abort_off : aborted_pulse [SetState true true; SetState false false].

(** The restoring write of [flash]: issued for every known pre-flash state,
    its result not looked at. *)
Definition restoring (original : option bool) (V : list action) : Prop :=
  match original with
  | Some s => exists ok, V = [SetState s ok]
  | None => V = []
  end.

(** Every device write in the list succeeded. *)
Definition all_writes_ok (V : list action) : Prop :=
  forall on ok, In (SetState on ok) V -> ok = true.

(** The reading of the flash rule under which the restoring write is issued
    only when the pre-flash state differs from the final toggle. *)
Definition flash_restores_only_on_difference : Prop :=
  forall (env : oracle) (w w' : world) (r : bool) (V : list action),
    cloud (tuya w) || device (tuya w) = true ->
    flash env 3 1 w = (Ok r, w') ->
    emits V w w' ->
    all_writes_ok V ->
    V = pulses 3
        ++ match last_state (tuya w) with
           | Some true => [SetState true true]
           | _ => []
           end.

(** [w'] is reached from [w] by talking to the outside world, sleeping and
    updating the device and calendar objects only: the service record is
    left alone and nothing but sleeps is recorded. *)
Definition quiet_step (w w' : world) : Prop :=
  svc w' = svc w /\ emits [] w w'.

Definition Quiet {A} (m : M A) : Prop :=
  forall w, quiet_step w (snd (m w)).

(** The program never raises. *)
Definition Total {A} (m : M A) : Prop :=
  forall w, exists a, fst (m w) = Ok a.

(** The switch positions the main thread asked for, in order. *)
Fixpoint device_writes (V : list action) : list bool :=
  match V with
  | [] => []
  | SetState on _ :: rest => on :: device_writes rest
  | _ :: rest => device_writes rest
  end.

(** Replay of a trace: for every device write of the main thread, whether
    the error-flash thread was alive when it was issued. *)
Fixpoint flashing_at_writes (alive : bool) (V : list action) : list bool :=
  match V with
  | [] => []
  | SetState _ _ :: rest => alive :: flashing_at_writes alive rest
  | StartErrorFlash :: rest => flashing_at_writes true rest
  | StopErrorFlash :: rest => flashing_at_writes false rest
  | _ :: rest => flashing_at_writes alive rest
  end.

(** The reading of the mutual-exclusion rule under which the error-flash
    thread is already stopped when the main loop writes. *)
Definition flash_stopped_before_write : Prop :=
  forall (env : oracle) (w w' : world) (d : bool) (name : option string)
         (V : list action),
    tick env w = (Ok (TickDone d name), w') ->
    d <> is_busy (svc w) ->
    emits V w w' ->
    Forall (fun alive => alive = false)
      (flashing_at_writes (error_flash_alive (svc w)) V).

(** The log line that opens the monitoring loop. *)
Definition reaches_running (V : list action) : Prop :=
  In (Log "Starting monitoring loop (checking on the minute)") V.

(** Both startup checks pass: [connect] and then [authenticate] return
    [True]. *)
Definition startup_ok (env : oracle) (w : world) : Prop :=
  fst (connect env w) = Ok true
  /\ fst (authenticate env (snd (connect env w))) = Ok true.

(** The program returns and only adds to the trace. *)
Definition Runs {A} (m : M A) : Prop :=
  forall w, exists a w' V, m w = (Ok a, w') /\ emits V w w'.

(** What the scan of [is_busy_soon] returns for an event list: the first
    opaque event decides. *)
Definition first_opaque (evs : list event) : bool * option string :=
  match find is_opaque evs with
  | Some e => (true, Some (summary_or "Busy" e))
  | None => (false, None)
  end.

(** The calendar never returns an opaque event. *)
Definition only_transparent (env : oracle) : Prop :=
  forall n a b evs e,
    events_list env n a b = Ok evs -> In e evs -> is_opaque e = false.

(** The classification rule in the words of the specification: an event
    counts as busy when its transparency marker is "opaque", which is the
    default when the marker is absent. *)
Definition marked_opaque (e : event) : Prop :=
  transparency e = None \/ transparency e = Some "opaque"%string.

(** The title reported for an event: its summary, "Busy" when it has none. *)
Definition title_of (e : event) : string :=
  match summary e with
  | Some title => title
  | None => "Busy"%string
  end.

(** The calendar never returns an event that counts as busy. *)
Definition no_event_marked_opaque (env : oracle) : Prop :=
  forall n a b evs e,
    events_list env n a b = Ok evs -> In e evs -> ~ marked_opaque e.

(** The instants a [datetime] holds, years 1 to 9999, in seconds since the
    epoch. *)
Definition in_datetime_range (t : Q) : Prop :=
  -62135596800 <= t /\ t < 253402300800.

(** The world after a connection test that passed: one request was made
    and the timestamp of the last success is the current clock; nothing else
    has changed. *)
Definition probed (u : world) : world :=
  with_tuya (set_last_successful_connection (clock u)) (with_calls S u).

(** The device answers the status request of a connection test. *)
Definition probe_answers (env : oracle) (u : world) : Prop :=
  if use_cloud_api (tuya u)
  then exists st, cloud_getstatus env (calls u) = Ok st /\ success st = true
  else exists dps, device_status env (calls u) = Ok (Some dps).

(** The reading of the staleness rule under which the connection is stale,
    and a reconnect forced, from the threshold on. *)
Definition reconnects_from_the_threshold_on : Prop :=
  forall (env : oracle) (w w' u : world),
    connect env w = (Ok true, w') ->
    ~ clock w' == 0 ->
    tuya u = tuya w' ->
    300 <= clock u - clock w' ->
    ensure_connection env u = connect env u.

(** The reading of the failure rule under which a failed authentication
    leaves the summary slot empty. *)
Definition auth_failure_yields_none : Prop :=
  forall (env : oracle) (lead : Z) (w w1 : world),
    ensure_authenticated env w = (Ok false, w1) ->
    is_busy_soon env lead w = (Ok (false, None), w1)
    /\ is_currently_busy env w = (Ok (false, None), w1).

(** The program keeps a property of the device object. *)
Definition KeepsT (P : TuyaController -> Prop) {A} (m : M A) : Prop :=
  forall w, P (tuya w) -> P (tuya (snd (m w))).

(** The last switch position asked for in [V], [before] when there is none. *)
Definition last_write (V : list action) (before : bool) : bool :=
  last (device_writes V) before.

(** A delay the executor may sleep: not negative, at most [max_delay]. *)
Definition within (max_delay : Q) (d : Q) : Prop := 0 <= d /\ d <= max_delay.

(** The program returns, and if the tracked busy state was the last switch
    position asked for before, it is so afterwards. *)
Definition Mirrors {A} (m : M A) : Prop :=
  forall w, exists a w' V,
    m w = (Ok a, w')
    /\ emits V w w'
    /\ is_busy (svc w') = last_write V (is_busy (svc w)).

(** The transparency marker is absent or one of the two the calendar
    hands out. *)
Definition well_marked (e : event) : Prop :=
  transparency e = None
  \/ transparency e = Some "opaque"%string
  \/ transparency e = Some "transparent"%string.

(** Start and end of the event parse and carry the same UTC offset, or
    none. *)
Definition uniform_zone (e : event) : Prop :=
  exists sd ed,
    parse_when (start_ e) = Ok sd /\ parse_when (end_ e) = Ok ed
    /\ tz sd = tz ed.

(** The event is going on at [now], by its wall-clock readings. *)
Definition is_current (now : Q) (e : event) : bool :=
  match parse_when (start_ e), parse_when (end_ e) with
  | Ok sd, Ok ed => Qle_bool (wall sd) now && Qle_bool now (wall ed)
  | _, _ => false
  end.

(** What the scan of [is_currently_busy] returns for an event list. *)
Definition first_current (now : Q) (evs : list event) : bool * option string :=
  match find (fun e => is_current now e && is_opaque e) evs with
  | Some e => (true, Some (summary_or "Busy" e))
  | None => (false, None)
  end.

(* ================================================================== *)
(** * Properties *)

(** ** The retry executor *)

Section Retry.

Variable env : oracle.
Variable A : Type.
Variable script : nat -> result A.
Variable max_retries : Z.
Variables initial_delay max_delay : Q.

Let body := retry_attempt env (scripted script) max_retries initial_delay max_delay.

Lemma samples_S (d n : nat) :
  samples env d (S n) = (0 + (1 - 0) * jitter env d) :: samples env (S d) n.
Proof.
  unfold samples. simpl. rewrite Nat.add_0_r. f_equal.
  rewrite <- seq_shift, map_map.
  apply map_ext. intros x. now rewrite Nat.add_succ_r.
Qed.

Lemma samples_length (d n : nat) : List.length (samples env d n) = n.
Proof. unfold samples. now rewrite length_map, length_seq. Qed.

Lemma samples_in_unit_interval (d n : nat) :
  (forall x, 0 <= jitter env x /\ jitter env x < 1) ->
  Forall unit_interval (samples env d n).
Proof.
  intros H. unfold samples. apply Forall_forall. intros j Hj.
  apply in_map_iff in Hj. destruct Hj as (x & <- & _).
  destruct (H (d + x)%nat) as [H0 H1]. unfold unit_interval.
  assert (E : 0 + (1 - 0) * jitter env (d + x) == jitter env (d + x)) by ring.
  rewrite E. auto.
Qed.

(** A failed attempt that is not the last one: one invocation, one draw,
    one sleep, and the loop goes on. *)
Lemma attempt_fails_and_sleeps (i : nat) (w : world) (e : exn) :
  script (calls w) = Raise e ->
  (Z.of_nat i =? max_retries - 1)%Z = false ->
  (i < 1024)%nat ->
  exists w',
    body i w = (Ok None, w')
    /\ calls w' = S (calls w)
    /\ draws w' = S (draws w)
    /\ trace w' = trace w
         ++ [Sleep (backoff_delay initial_delay max_delay i
                      (0 + (1 - 0) * jitter env (draws w)))].
Proof.
  intros Hs Hi Hlt.
  unfold body, retry_attempt, try_except, bind, scripted, ask, power_overflows.
  apply Nat.leb_gt in Hlt. rewrite Hs, Hi, Hlt. cbn. eexists. repeat split.
Qed.

(** A failed attempt that is not the last one, from attempt 1024 on: the
    delay cannot be computed, and the overflow leaves the loop before any
    draw or sleep. *)
Lemma attempt_overflows (i : nat) (w : world) (e : exn) :
  script (calls w) = Raise e ->
  (Z.of_nat i =? max_retries - 1)%Z = false ->
  (1024 <= i)%nat ->
  body i w = (Raise (OtherError "OverflowError" "int too large to convert to float"),
              with_calls S w).
Proof.
  intros Hs Hi Hge.
  unfold body, retry_attempt, try_except, bind, scripted, ask, power_overflows.
  apply Nat.leb_le in Hge. now rewrite Hs, Hi, Hge.
Qed.

Lemma attempt_fails_last (i : nat) (w : world) (e : exn) :
  script (calls w) = Raise e ->
  (Z.of_nat i =? max_retries - 1)%Z = true ->
  body i w = (Raise e, with_calls S w).
Proof.
  intros Hs Hi. unfold body, retry_attempt, try_except, bind, scripted, ask.
  now rewrite Hs, Hi.
Qed.

Lemma attempt_succeeds (i : nat) (w : world) (v : A) :
  script (calls w) = Ok v ->
  body i w = (Ok (Some v), with_calls S w).
Proof.
  intros Hs. unfold body, retry_attempt, try_except, bind, scripted, ask.
  now rewrite Hs.
Qed.


Lemma loop_fails_throughout (n : nat) :
  forall (i : nat) (w : world) (failure : nat -> exn),
    (Z.of_nat (i + S n) = max_retries)%Z ->
    (i + n <= 1024)%nat ->
    (forall x, (x <= n)%nat -> script (calls w + x) = Raise (failure x)) ->
    exists w',
      for_from i (S n) body w = (Raise (failure n), w')
      /\ calls w' = (calls w + S n)%nat
      /\ draws w' = (draws w + n)%nat
      /\ trace w' = trace w
           ++ map Sleep (delays_from initial_delay max_delay i
                           (samples env (draws w) n)).
Proof.
  induction n as [|n IH]; intros i w failure Hn Hb Hfail.
  - pose proof (Hfail 0%nat (Nat.le_refl _)) as He. rewrite Nat.add_0_r in He.
    assert (Hi : (Z.of_nat i =? max_retries - 1)%Z = true)
      by (apply Z.eqb_eq; lia).
    cbn [for_from]. unfold bind at 1. rewrite (attempt_fails_last i w He Hi).
    eexists. split; [reflexivity|]. cbn. rewrite app_nil_r.
    repeat split; lia.
  - pose proof (Hfail 0%nat (Nat.le_0_l _)) as He. rewrite Nat.add_0_r in He.
    assert (Hi : (Z.of_nat i =? max_retries - 1)%Z = false)
      by (apply Z.eqb_neq; lia).
    assert (Hlt : (i < 1024)%nat) by lia.
    destruct (attempt_fails_and_sleeps w He Hi Hlt) as (w1 & E1 & C1 & D1 & T1).
    destruct (IH (S i) w1 (fun x => failure (S x))) as (w' & E & C & D & T).
    + lia.
    + lia.
    + intros x Hx. rewrite C1, <- (Hfail (S x)); [f_equal|]; lia.
    + exists w'. split.
      { remember (S n) as m. cbn [for_from]. unfold bind at 1.
        rewrite E1. subst m. exact E. }
      repeat split; [lia|lia|].
      rewrite T, T1, D1, samples_S. cbn [delays_from map].
      now rewrite <- app_assoc.
Qed.

End Retry.

(** The delays the loop sleeps are those the specification words. *)
Lemma delays_from_length (a b : Q) (js : list Q) :
  forall i, List.length (delays_from a b i js) = List.length js.
Proof. induction js as [|j js IH]; intros i; cbn; [reflexivity | now rewrite IH]. Qed.

Lemma delays_from_nth (a b : Q) (js : list Q) :
  forall i x, (x < List.length js)%nat ->
    nth x (delays_from a b i js) 0
    = Qmin (a * 2 ^ Z.of_nat (i + x) + nth x js 0) b.
Proof.
  induction js as [|j js IH]; intros i x Hx; cbn in Hx; [lia|].
  destruct x as [|x]; cbn [delays_from nth].
  - now rewrite Nat.add_0_r.
  - rewrite IH by lia. now rewrite Nat.add_succ_r.
Qed.

Lemma samples_nth (env : oracle) (d n x : nat) :
  (x < n)%nat ->
  nth x (samples env d n) 0 = 0 + (1 - 0) * jitter env (d + x).
Proof.
  intros Hx. unfold samples.
  set (f := fun y : nat => 0 + (1 - 0) * jitter env (d + y)).
  rewrite (nth_indep _ 0 (f 0%nat)) by now rewrite length_map, length_seq.
  rewrite map_nth, seq_nth by exact Hx. reflexivity.
Qed.

Lemma backoff_delay_sleepable (a b j : Q) (i : nat) :
  0 < a -> a <= b -> b <= sleep_max -> 0 <= j ->
  sleepable (Qmin (a * 2 ^ Z.of_nat i + j) b).
Proof.
  intros Ha Hab Hb Hj. split.
  - apply Q.min_glb.
    + assert (H2 : 0 < 2 ^ Z.of_nat i) by now apply Qpower_0_lt.
      assert (H3 : 0 < a * 2 ^ Z.of_nat i) by now apply Qmult_lt_0_compat.
      lra.
    + lra.
  - eapply Qle_trans; [apply Q.le_min_r | exact Hb].
Qed.

Lemma loop_sleeps_are_backoff (env : oracle) (a b : Q) (d k : nat) :
  0 < a -> a <= b -> b <= sleep_max ->
  (forall x, 0 <= jitter env x /\ jitter env x < 1) ->
  List.length (delays_from a b 0 (samples env d k)) = k
  /\ backoff_sleeps a b (delays_from a b 0 (samples env d k)).
Proof.
  intros Ha Hab Hb Hj.
  assert (L : List.length (delays_from a b 0 (samples env d k)) = k)
    by now rewrite delays_from_length, samples_length.
  split; [exact L|].
  intros i Hi. rewrite L in Hi.
  rewrite delays_from_nth by now rewrite samples_length.
  rewrite samples_nth by exact Hi. cbn [Nat.add].
  destruct (Hj (d + i)%nat) as [H0 H1].
  assert (E0 : 0 <= 0 + (1 - 0) * jitter env (d + i)) by lra.
  assert (E1 : 0 + (1 - 0) * jitter env (d + i) < 1) by lra.
  split.
  - exists (0 + (1 - 0) * jitter env (d + i)).
    split; [exact E0|]. split; [exact E1|]. reflexivity.
  - apply backoff_delay_sleepable; assumption.
Qed.

(** Decides [valid_policy] on numerals. *)
Ltac concrete_policy :=
  unfold valid_policy;
  split; [lia|]; split; [reflexivity|]; split; vm_compute; discriminate.




(** C2 (as amended). Under a valid policy with [max_retries <= 1025], an
    operation that fails on every invocation is invoked exactly
    [max_retries] times, with [max_retries - 1] backoff sleeps in between,
    and the caller then receives the operation's own last failure, re-raised
    as it is. *)
Theorem retry_exhaustion_reraises_last_failure :
  forall (env : oracle) (A : Type) (script : nat -> result A)
         (max_retries : Z) (initial_delay max_delay : Q)
         (failure : nat -> exn) (w : world),
    valid_policy max_retries initial_delay max_delay ->
    (max_retries <= 1025)%Z ->
    (forall x, 0 <= jitter env x /\ jitter env x < 1) ->
    (forall x, (x < Z.to_nat max_retries)%nat ->
               script (calls w + x)%nat = Raise (failure x)) ->
    exists (w' : world) (ds : list Q),
      retry_with_exponential_backoff env (scripted script)
        max_retries initial_delay max_delay w
      = (Raise (failure (Z.to_nat max_retries - 1)%nat), w')
      /\ calls w' = (calls w + Z.to_nat max_retries)%nat
      /\ trace w' = trace w ++ map Sleep ds
      /\ List.length ds = (Z.to_nat max_retries - 1)%nat
      /\ backoff_sleeps initial_delay max_delay ds.
Proof.
  intros env A script max_retries initial_delay max_delay failure w
    (Hmax & Ha & Hab & Hb) Hcap Hj Hfail.
  destruct (Z.to_nat max_retries) as [|n] eqn:En; [lia|].
  destruct (@loop_fails_throughout env A script max_retries initial_delay
              max_delay n 0%nat w failure)
    as (w' & E & C & _ & T).
  - lia.
  - lia.
  - intros x Hx. apply Hfail. lia.
  - destruct (@loop_sleeps_are_backoff env initial_delay max_delay (draws w) n)
      as [L B]; try assumption.
    exists w', (delays_from initial_delay max_delay 0 (samples env (draws w) n)).
    unfold retry_with_exponential_backoff, for_range, bind.
    rewrite En, E. replace (S n - 1)%nat with n by lia.
    split; [reflexivity|]. split; [exact C|]. split; [exact T|].
    split; [exact L | exact B].
Qed.

Lemma retry_exhaustion_reraises_last_failure_witness :
  exists (w' : world) (ds : list Q),
    retry_with_exponential_backoff calm (scripted hopeless) 3 1 60 boot
    = (Raise (Exception "timeout"), w')
    /\ calls w' = (calls boot + 3)%nat
    /\ trace w' = trace boot ++ map Sleep ds
    /\ List.length ds = 2%nat
    /\ backoff_sleeps 1 60 ds.
Proof.
  apply (@retry_exhaustion_reraises_last_failure calm nat hopeless 3 1 60
           (fun _ => Exception "timeout") boot).
  - concrete_policy.
  - lia.
  - intros x. split; [unfold Qle | unfold Qlt]; simpl; lia.
  - intros x _. reflexivity.
Defined.

(** C2, refuted as stated: three failures in a row end with the raw
    exception of the third invocation, not with a wrapper around it. *)
Lemma exhaustion_is_not_wrapped : ~ exhaustion_is_wrapped.
Proof.
  intros H.
  destruct (H calm hopeless 3%Z 1 60 (fun _ => Exception "timeout") boot)
    as (w' & wrapped & E & _ & Hneq).
  - lia.
  - intros x. reflexivity.
  - apply Hneq. vm_compute in E. now inversion E.
Qed.

(** With no attempt allowed the operation is never invoked and the generic
    exception after the loop is raised. *)
Lemma retry_without_attempts (env : oracle) (A : Type) (func : M A)
  (max_retries : Z) (initial_delay max_delay : Q) (w : world) :
  (max_retries <= 0)%Z ->
  retry_with_exponential_backoff env func max_retries initial_delay max_delay w
  = (Raise (Exception ("All " ++ string_of_Z max_retries
                         ++ " retry attempts failed")), w).
Proof.
  intros H. unfold retry_with_exponential_backoff, for_range, bind.
  replace (Z.to_nat max_retries) with 0%nat by lia. reflexivity.
Qed.

(** ** Frame and totality rules *)

Lemma quiet_step_refl (w : world) : quiet_step w w.
Proof. split; [reflexivity|]. exists []. now rewrite app_nil_r. Qed.

Lemma quiet_step_same (w w' : world) :
  svc w' = svc w -> trace w' = trace w -> quiet_step w w'.
Proof.
  intros Hs Ht. split; [exact Hs|]. exists []. now rewrite app_nil_r.
Qed.

Lemma visible_app (t u : list action) : visible (t ++ u) = visible t ++ visible u.
Proof. apply filter_app. Qed.

Lemma quiet_step_trans (w1 w2 w3 : world) :
  quiet_step w1 w2 -> quiet_step w2 w3 -> quiet_step w1 w3.
Proof.
  intros [S1 (T1 & E1 & V1)] [S2 (T2 & E2 & V2)]. split; [congruence|].
  exists (T1 ++ T2). rewrite E2, E1, app_assoc, visible_app, V1, V2. auto.
Qed.

Lemma since_app (w w' : world) (T : list action) :
  trace w' = trace w ++ T -> since w w' = T.
Proof.
  intros E. unfold since. rewrite E, skipn_app, skipn_all, Nat.sub_diag. reflexivity.
Qed.

Lemma Quiet_ret A (a : A) : Quiet (ret a).
Proof. intros w. apply quiet_step_refl. Qed.

Lemma Quiet_raise A (e : exn) : Quiet (@raise A e).
Proof. intros w. apply quiet_step_refl. Qed.

Lemma Quiet_gets A (f : world -> A) : Quiet (gets f).
Proof. intros w. apply quiet_step_refl. Qed.

Lemma Quiet_lift A (r : result A) : Quiet (lift r).
Proof. intros w. apply quiet_step_refl. Qed.

Lemma Quiet_ask A (answer : nat -> result A) : Quiet (ask answer).
Proof. intros w. now apply quiet_step_same. Qed.

Lemma Quiet_modify_tuya f : Quiet (modify (with_tuya f)).
Proof. intros w. now apply quiet_step_same. Qed.

Lemma Quiet_modify_calendar f : Quiet (modify (with_calendar f)).
Proof. intros w. now apply quiet_step_same. Qed.

Lemma Quiet_sleep (d : Q) : Quiet (sleep d).
Proof. intros w. split; [reflexivity|]. now exists [Sleep d]. Qed.

Lemma Quiet_bind A B (m : M A) (k : A -> M B) :
  Quiet m -> (forall a, Quiet (k a)) -> Quiet (bind m k).
Proof.
  intros Hm Hk w. unfold bind. specialize (Hm w).
  destruct (m w) as [[a|e] w1]; cbn in *; [|exact Hm].
  eapply quiet_step_trans; [exact Hm|apply Hk].
Qed.

Lemma Quiet_try A (m : M A) (handler : exn -> M A) :
  Quiet m -> (forall e, Quiet (handler e)) -> Quiet (try_except m handler).
Proof.
  intros Hm Hh w. unfold try_except. specialize (Hm w).
  destruct (m w) as [[a|e] w1]; cbn in *; [exact Hm|].
  eapply quiet_step_trans; [exact Hm|apply Hh].
Qed.

Lemma Quiet_for_from R (body : nat -> M (option R)) (n : nat) :
  (forall i, Quiet (body i)) -> forall i, Quiet (for_from i n body).
Proof.
  intros Hb. induction n as [|n IH]; intros i; cbn [for_from].
  - apply Quiet_ret.
  - apply Quiet_bind; [apply Hb|]. intros [v|]; [apply Quiet_ret|apply IH].
Qed.

Lemma Quiet_for_each X R (body : X -> M (option R)) (xs : list X) :
  (forall x, Quiet (body x)) -> Quiet (for_each xs body).
Proof.
  intros Hb. induction xs as [|x xs IH]; cbn [for_each].
  - apply Quiet_ret.
  - apply Quiet_bind; [apply Hb|]. intros [v|]; [apply Quiet_ret|apply IH].
Qed.

Lemma Total_ret A (a : A) : Total (ret a).
Proof. intros w. now exists a. Qed.

Lemma Total_gets A (f : world -> A) : Total (gets f).
Proof. intros w. now exists (f w). Qed.

Lemma Quiet_time_time : Quiet time_time.
Proof. apply Quiet_gets. Qed.

Lemma Total_time_time : Total time_time.
Proof. apply Total_gets. Qed.

Lemma Total_modify f : Total (modify f).
Proof. intros w. now exists tt. Qed.

Lemma Total_bind A B (m : M A) (k : A -> M B) :
  Total m -> (forall a, Total (k a)) -> Total (bind m k).
Proof.
  intros Hm Hk w. unfold bind. destruct (Hm w) as [a Ha].
  destruct (m w) as [[a'|e] w1]; cbn in *; [|discriminate]. apply Hk.
Qed.

Lemma Total_try A (m : M A) (handler : exn -> M A) :
  (forall e, Total (handler e)) -> Total (try_except m handler).
Proof.
  intros Hh w. unfold try_except.
  destruct (m w) as [[a|e] w1]; cbn; [now exists a|apply Hh].
Qed.

Lemma Total_sleep (d : Q) : Total (sleep d).
Proof. intros w. now exists tt. Qed.

Lemma Total_emit (a : action) : Total (emit a).
Proof. intros w. now exists tt. Qed.

(** A total program run from [w]: its value and final world. *)
Lemma Total_run A (m : M A) (w : world) :
  Total m -> exists a w', m w = (Ok a, w').
Proof.
  intros H. destruct (H w) as [a Ha]. exists a, (snd (m w)).
  destruct (m w); cbn in *. now subst.
Qed.

Lemma bind_Ok A B (m : M A) (k : A -> M B) (w w' : world) (a : A) :
  m w = (Ok a, w') -> bind m k w = k a w'.
Proof. intros E. unfold bind. now rewrite E. Qed.
Arguments bind_Ok [A B m] k [w w' a] _.

Create HintDb quiet.
Create HintDb total.

#[export] Hint Resolve Quiet_ret Quiet_raise Quiet_gets Quiet_lift Quiet_ask
  Quiet_modify_tuya Quiet_modify_calendar Quiet_sleep Quiet_time_time : quiet.
#[export] Hint Resolve Total_ret Total_gets Total_modify Total_sleep Total_emit
  Total_time_time : total.

(** Structural descent through a program, leaves closed from the hint base. *)
Ltac quiet :=
  repeat first
    [ solve [auto with quiet]
    | match goal with |- forall _, _ => intro end
    | apply Quiet_bind
    | apply Quiet_try
    | apply Quiet_for_from
    | apply Quiet_for_each
    | match goal with
      | |- Quiet (if ?c then _ else _) => destruct c
      | |- Quiet (match ?x with _ => _ end) => destruct x
      end ].

Ltac total :=
  repeat first
    [ solve [auto with total]
    | match goal with |- forall _, _ => intro end
    | apply Total_bind
    | apply Total_try
    | match goal with
      | |- Total (if ?c then _ else _) => destruct c
      | |- Total (match ?x with _ => _ end) => destruct x
      end ].

Section Frames.

Variable env : oracle.

Lemma Quiet_random_uniform (a b : Q) : Quiet (random_uniform env a b).
Proof. intros w. now apply quiet_step_same. Qed.

Lemma Quiet_is_network_available : Quiet (is_network_available env).
Proof. intros w. now apply quiet_step_same. Qed.

Lemma Total_is_network_available : Total (is_network_available env).
Proof. intros w. now eexists. Qed.

Hint Resolve Quiet_random_uniform Quiet_is_network_available : quiet.
Hint Resolve Total_is_network_available : total.

Lemma Quiet_retry A (func : M A) (max_retries : Z) (initial_delay max_delay : Q) :
  Quiet func ->
  Quiet (retry_with_exponential_backoff env func max_retries initial_delay max_delay).
Proof.
  intros H. unfold retry_with_exponential_backoff, for_range, retry_attempt. quiet.
Qed.

Lemma Quiet_wait_for_network (max_wait check_interval : Q) :
  Quiet (wait_for_network env max_wait check_interval).
Proof.
  unfold wait_for_network. apply Quiet_bind; [quiet|]. intros start_time.
  induction (S (Z.to_nat (Qceiling (max_wait / check_interval)))) as [|n IH];
    cbn [wait_for_network_loop]; quiet.
Qed.

Lemma Total_wait_for_network (max_wait check_interval : Q) :
  Total (wait_for_network env max_wait check_interval).
Proof.
  unfold wait_for_network. apply Total_bind; [total|]. intros start_time.
  induction (S (Z.to_nat (Qceiling (max_wait / check_interval)))) as [|n IH];
    cbn [wait_for_network_loop]; total.
Qed.

Lemma Quiet__connect : Quiet (_connect env).
Proof. unfold _connect. quiet. Qed.

Lemma Quiet_connect : Quiet (connect env).
Proof. unfold connect. apply Quiet_try; [apply Quiet_retry, Quiet__connect|quiet]. Qed.

Lemma Total_connect : Total (connect env).
Proof. unfold connect. total. Qed.

Hint Resolve Quiet_connect Quiet_wait_for_network : quiet.
Hint Resolve Total_connect Total_wait_for_network : total.

Lemma Quiet_ensure_connection : Quiet (ensure_connection env).
Proof. unfold ensure_connection. quiet. Qed.

Lemma Total_ensure_connection : Total (ensure_connection env).
Proof. unfold ensure_connection. total. Qed.

Lemma Quiet__set_state (state : bool) : Quiet (_set_state env state).
Proof. unfold _set_state. quiet. Qed.

Hint Resolve Quiet_ensure_connection : quiet.
Hint Resolve Total_ensure_connection : total.

Lemma Quiet_set_state_body (state : bool) : Quiet (set_state_body env state).
Proof.
  unfold set_state_body. quiet.
Qed.

Lemma Total_set_state_body (state : bool) : Total (set_state_body env state).
Proof. unfold set_state_body. total. Qed.

Lemma Total_set_state (state : bool) : Total (set_state env state).
Proof. unfold set_state. total. Qed.

Lemma Quiet_authenticate : Quiet (authenticate env).
Proof.
  unfold authenticate. apply Quiet_try; [apply Quiet_retry|quiet].
  unfold _authenticate. quiet.
Qed.

Lemma Total_authenticate : Total (authenticate env).
Proof. unfold authenticate. total. Qed.

Hint Resolve Quiet_authenticate : quiet.
Hint Resolve Total_authenticate Total_set_state : total.

Lemma Total_ask_Ok A (f : nat -> A) : Total (ask (fun n => Ok (f n))).
Proof. intros w. now eexists. Qed.

Hint Resolve Total_ask_Ok : total.

Lemma Quiet_ensure_authenticated : Quiet (ensure_authenticated env).
Proof. unfold ensure_authenticated. quiet. Qed.

Lemma Total_ensure_authenticated : Total (ensure_authenticated env).
Proof. unfold ensure_authenticated. total. Qed.

Hint Resolve Quiet_ensure_authenticated : quiet.
Hint Resolve Total_ensure_authenticated : total.

Lemma Quiet_scan_opaque (e : event) : Quiet (scan_opaque e).
Proof. unfold scan_opaque. quiet. Qed.

Lemma Quiet_scan_current (now : Q) (e : event) : Quiet (scan_current now e).
Proof. unfold scan_current. quiet. Qed.

Hint Resolve Quiet_scan_opaque Quiet_scan_current : quiet.

Lemma Quiet_is_busy_soon (lead : Z) : Quiet (is_busy_soon env lead).
Proof.
  unfold is_busy_soon. quiet.
Qed.

Lemma Total_is_busy_soon (lead : Z) : Total (is_busy_soon env lead).
Proof. unfold is_busy_soon. total. Qed.

Lemma Quiet_is_currently_busy : Quiet (is_currently_busy env).
Proof.
  unfold is_currently_busy. quiet.
Qed.

Lemma Total_is_currently_busy : Total (is_currently_busy env).
Proof. unfold is_currently_busy. total. Qed.

Lemma Quiet_log_daily_events : Quiet (log_daily_events env).
Proof. unfold log_daily_events, get_todays_events. quiet. Qed.

Lemma Total_log_daily_events : Total (log_daily_events env).
Proof. unfold log_daily_events. total. Qed.

End Frames.

(** ** The device controller *)

Lemma emits_nil (w : world) : emits [] w w.
Proof. exists []. now rewrite app_nil_r. Qed.

Lemma emits_trans (V1 V2 : list action) (w1 w2 w3 : world) :
  emits V1 w1 w2 -> emits V2 w2 w3 -> emits (V1 ++ V2) w1 w3.
Proof.
  intros (T1 & E1 & H1) (T2 & E2 & H2). exists (T1 ++ T2).
  rewrite E2, E1, app_assoc, visible_app, H1, H2. auto.
Qed.

Lemma emits_functional (V1 V2 : list action) (w w' : world) :
  emits V1 w w' -> emits V2 w w' -> V1 = V2.
Proof.
  intros (T1 & E1 & H1) (T2 & E2 & H2). rewrite E1 in E2.
  apply app_inv_head in E2. congruence.
Qed.

Lemma sleep_spec (d : Q) (w : world) :
  exists w', sleep d w = (Ok tt, w') /\ svc w' = svc w /\ emits [] w w'.
Proof.
  eexists. split; [reflexivity|]. split; [reflexivity|]. now exists [Sleep d].
Qed.

Section Device.

Variable env : oracle.

(** A call of [set_state] always returns, leaves the service record alone
    and records exactly itself. *)
Lemma set_state_spec (state : bool) (w : world) :
  exists (ok : bool) (w' : world),
    set_state env state w = (Ok ok, w')
    /\ svc w' = svc w
    /\ emits [SetState state ok] w w'.
Proof.
  destruct (Total_run w (Total_set_state_body env state)) as (ok & w1 & E).
  pose proof (Quiet_set_state_body env state w) as Hq. rewrite E in Hq.
  destruct Hq as [Hs He]. cbn in Hs, He.
  exists ok. eexists. unfold set_state. rewrite (bind_Ok _ E). cbn.
  split; [reflexivity|]. split; [exact Hs|].
  change [SetState state ok] with ([] ++ [SetState state ok]).
  eapply emits_trans; [exact He|]. now exists [SetState state ok].
Qed.

(** Without a handle [flash] gives up before touching anything. *)
Lemma flash_gives_up (times : Z) (duration : Q) (w : world) :
  cloud (tuya w) = false ->
  device (tuya w) = false ->
  flash env times duration w = (Ok false, w).
Proof.
  intros Hc Hd. unfold flash, bind, gets. now rewrite Hc, Hd.
Qed.

Lemma flash_pulse_spec (duration : Q) (w : world) :
  exists (r : option bool) (w' : world),
    flash_pulse env duration w = (Ok r, w')
    /\ svc w' = svc w
    /\ ((r = None /\ emits (pulses 1) w w')
        \/ (r = Some false /\ exists V, aborted_pulse V /\ emits V w w')).
Proof.
  unfold flash_pulse.
  destruct (set_state_spec true w) as (on & w1 & E1 & S1 & T1).
  rewrite (bind_Ok _ E1). destruct on; cbn [negb].
  - destruct (sleep_spec duration w1) as (w2 & E2 & S2 & Z1).
    rewrite (bind_Ok _ E2).
    destruct (set_state_spec false w2) as (off & w3 & E3 & S3 & T3).
    rewrite (bind_Ok _ E3). destruct off; cbn [negb].
    + destruct (sleep_spec duration w3) as (w4 & E4 & S4 & Z3).
      rewrite (bind_Ok _ E4).
      exists None, w4. split; [reflexivity|]. split; [congruence|]. left.
      split; [reflexivity|].
      pose proof (emits_trans (emits_trans (emits_trans T1 Z1) T3) Z3) as H.
      exact H.
    + exists (Some false), w3. split; [reflexivity|]. split; [congruence|].
      right. split; [reflexivity|].
      exists [SetState true true; SetState false false]. split; [constructor|].
      exact (emits_trans (emits_trans T1 Z1) T3).
  - exists (Some false), w1. split; [reflexivity|]. split; [exact S1|].
    right. split; [reflexivity|].
    exists [SetState true false]. split; [constructor|exact T1].
Qed.

Lemma flash_loop_spec (duration : Q) (n : nat) :
  forall (i : nat) (w : world),
  exists (r : option bool) (w' : world),
    for_from i n (fun _ => flash_pulse env duration) w = (Ok r, w')
    /\ svc w' = svc w
    /\ ((r = None /\ emits (pulses n) w w')
        \/ (r = Some false
            /\ exists m V, (m < n)%nat /\ aborted_pulse V
                           /\ emits (pulses m ++ V) w w')).
Proof.
  induction n as [|n IH]; intros i w.
  - exists None, w. split; [reflexivity|]. split; [reflexivity|].
    left. split; [reflexivity|apply emits_nil].
  - destruct (flash_pulse_spec duration w) as (r1 & w1 & E1 & S1 & [[-> T1]|[-> T1]]).
    + destruct (IH (S i) w1) as (r & w' & E & S' & H).
      exists r, w'. split; [cbn [for_from]; now rewrite (bind_Ok _ E1)|].
      split; [congruence|].
      destruct H as [[-> T]|[-> (m & V & Hm & HV & T)]].
      * left. split; [reflexivity|].
        change (pulses (S n)) with (pulses 1 ++ pulses n).
        exact (emits_trans T1 T).
      * right. split; [reflexivity|]. exists (S m), V.
        split; [lia|]. split; [exact HV|].
        change (pulses (S m) ++ V) with (pulses 1 ++ (pulses m ++ V)).
        exact (emits_trans T1 T).
    + destruct T1 as (V & HV & T1).
      exists (Some false), w1. split; [cbn [for_from]; now rewrite (bind_Ok _ E1)|].
      split; [exact S1|]. right. split; [reflexivity|].
      exists 0%nat, V. split; [lia|]. split; [exact HV|exact T1].
Qed.

(** The whole of [flash], for any number of pulses. *)
Lemma flash_spec (times : Z) (duration : Q) (w : world) :
  cloud (tuya w) || device (tuya w) = true ->
  exists (r : bool) (w' : world),
    flash env times duration w = (Ok r, w')
    /\ svc w' = svc w
    /\ ((r = true
         /\ exists V, restoring (last_state (tuya w)) V
                      /\ emits (pulses (Z.to_nat times) ++ V) w w')
        \/ (r = false
            /\ exists m V, (m < Z.to_nat times)%nat /\ aborted_pulse V
                           /\ emits (pulses m ++ V) w w')).
Proof.
  intros Hh. unfold flash, gets, bind at 1. rewrite Hh. cbn [negb].
  unfold try_except, for_range.
  destruct (flash_loop_spec duration (Z.to_nat times) 0 w)
    as (r & w1 & E & S1 & H).
  rewrite (bind_Ok _ E).
  destruct H as [[-> T]|[-> (m & V & Hm & HV & T)]].
  - destruct (last_state (tuya w)) as [s|] eqn:Ls.
    + destruct (set_state_spec s w1) as (ok & w2 & E2 & S2 & T2).
      rewrite (bind_Ok _ E2). cbn.
      exists true, w2. split; [reflexivity|]. split; [congruence|]. left.
      split; [reflexivity|]. exists [SetState s ok].
      split; [now exists ok|exact (emits_trans T T2)].
    + cbn. exists true, w1. split; [reflexivity|]. split; [exact S1|]. left.
      split; [reflexivity|]. exists []. split; [reflexivity|].
      now rewrite app_nil_r.
  - cbn. exists false, w1. split; [reflexivity|]. split; [exact S1|]. right.
    split; [reflexivity|]. now exists m, V.
Qed.

End Device.

(** C4 (as amended). With a device handle, [flash(times=3, duration=1)]
    always returns.  It returns [True] after six writes, alternately on and
    off, all successful, followed by one restoring write whenever the
    pre-flash state is known, whatever that state is and whatever the
    restoring write returns; it returns [False] as soon as one of the six
    fails, that failed write being the last one issued.  When every write
    succeeds the writes are exactly the six and the restoring one. *)
Theorem flash_three_pulses :
  forall (env : oracle) (w : world),
    cloud (tuya w) || device (tuya w) = true ->
    exists (r : bool) (w' : world) (V : list action),
      flash env 3 1 w = (Ok r, w')
      /\ emits V w w'
      /\ ((r = true
           /\ exists R, restoring (last_state (tuya w)) R /\ V = pulses 3 ++ R)
          \/ (r = false
              /\ exists m F, (m < 3)%nat /\ aborted_pulse F /\ V = pulses m ++ F))
      /\ (all_writes_ok V ->
          r = true
          /\ V = pulses 3
                 ++ match last_state (tuya w) with
                    | Some s => [SetState s true]
                    | None => []
                    end).
Proof.
  intros env w Hh.
  destruct (flash_spec env 3 1 w Hh) as (r & w' & E & _ & H).
  change (Z.to_nat 3) with 3%nat in H.
  destruct H as [[-> (R & HR & T)]|[-> (m & F & Hm & HF & T)]].
  - exists true, w', (pulses 3 ++ R). split; [exact E|]. split; [exact T|].
    split; [left; split; [reflexivity|now exists R]|].
    intros Hok. split; [reflexivity|]. f_equal.
    unfold restoring in HR. destruct (last_state (tuya w)) as [s|]; [|exact HR].
    destruct HR as [ok ->]. f_equal. f_equal.
    apply (Hok s ok). apply in_or_app. right. now left.
  - exists false, w', (pulses m ++ F). split; [exact E|]. split; [exact T|].
    split; [right; split; [reflexivity|now exists m, F]|].
    intros Hok. exfalso.
    assert (Hbad : exists on, In (SetState on false) (pulses m ++ F)).
    { destruct HF; [exists true|exists false]; apply in_or_app; right; cbn; auto. }
    destruct Hbad as [on Hin]. specialize (Hok on false Hin). discriminate.
Qed.

Lemma flash_three_pulses_witness :
  exists (r : bool) (w' : world) (V : list action),
    flash calm 3 1 linked = (Ok r, w')
    /\ emits V linked w'
    /\ ((r = true
         /\ exists R, restoring (last_state (tuya linked)) R /\ V = pulses 3 ++ R)
        \/ (r = false
            /\ exists m F, (m < 3)%nat /\ aborted_pulse F /\ V = pulses m ++ F))
    /\ (all_writes_ok V ->
        r = true
        /\ V = pulses 3
               ++ match last_state (tuya linked) with
                  | Some s => [SetState s true]
                  | None => []
                  end).
Proof. apply (flash_three_pulses calm linked). reflexivity. Defined.

(** C4, refuted as stated: the switch is off before the flash, every write
    succeeds, and a seventh, restoring write to off is issued all the same. *)
Lemma flash_restores_even_without_difference : ~ flash_restores_only_on_difference.
Proof.
  intros H.
  pose (w' := snd (flash calm 3 1 linked)).
  specialize (H calm linked w' true (pulses 3 ++ [SetState false true])).
  assert (E : pulses 3 ++ [SetState false true] = pulses 3 ++ []); [|discriminate E].
  apply H.
  - reflexivity.
  - vm_compute. reflexivity.
  - exists (trace w'). split; vm_compute; reflexivity.
  - intros on ok Hin. cbn in Hin.
    repeat (destruct Hin as [Hin|Hin]; [now inversion Hin|]). contradiction.
Qed.

(** C10. Before any connect attempt, when neither the cloud handle nor the
    local device handle exists, [flash] returns [False] at once: no device
    write is issued and the world, the last known state included, is as it
    was. *)
Theorem flash_without_handle :
  forall (env : oracle) (times : Z) (duration : Q) (w : world),
    cloud (tuya w) = false ->
    device (tuya w) = false ->
    flash env times duration w = (Ok false, w).
Proof.
  intros env times duration w Hc Hd. now apply flash_gives_up.
Qed.

Lemma flash_without_handle_witness : flash calm 3 1 boot = (Ok false, boot).
Proof. apply (flash_without_handle calm 3 1 boot); reflexivity. Defined.

(** ** The orchestrating loop *)

(** A program that is quiet and total, run from [w]. *)
Lemma calm_run A (m : M A) (w : world) :
  Quiet m -> Total m ->
  exists a w', m w = (Ok a, w') /\ svc w' = svc w /\ emits [] w w'.
Proof.
  intros Hq Ht. destruct (Total_run w Ht) as (a & w' & E).
  specialize (Hq w). rewrite E in Hq. destruct Hq as [Hs He].
  now exists a, w'.
Qed.

Lemma set_error_flash_alive_same (s : BusyLightService) (b : bool) :
  error_flash_alive s = b -> set_error_flash_alive b s = s.
Proof. destruct s. cbn. now intros ->. Qed.

Lemma set_is_busy_same (s : BusyLightService) (b : bool) :
  is_busy s = b -> set_is_busy b s = s.
Proof. destruct s. cbn. now intros ->. Qed.

Section Loop.

Variable env : oracle.

Lemma start_error_flash_spec (w : world) :
  exists w',
    start_error_flash w = (Ok tt, w')
    /\ svc w' = set_error_flash_alive true (svc w)
    /\ emits (if error_flash_alive (svc w) then [] else [StartErrorFlash]) w w'.
Proof.
  unfold start_error_flash, bind, gets.
  destruct (error_flash_alive (svc w)) eqn:Ha.
  - exists w. split; [reflexivity|].
    split; [now rewrite set_error_flash_alive_same|apply emits_nil].
  - eexists. split; [reflexivity|]. split; [reflexivity|].
    now exists [StartErrorFlash].
Qed.

Lemma stop_error_flash_spec (w : world) :
  exists w',
    stop_error_flash w = (Ok tt, w')
    /\ svc w' = set_error_flash_alive false (svc w)
    /\ emits (if error_flash_alive (svc w) then [StopErrorFlash] else []) w w'.
Proof.
  unfold stop_error_flash, bind, gets.
  destruct (error_flash_alive (svc w)) eqn:Ha.
  - eexists. split; [reflexivity|]. split; [reflexivity|].
    now exists [StopErrorFlash].
  - exists w. split; [reflexivity|].
    split; [now rewrite set_error_flash_alive_same|apply emits_nil].
Qed.

Lemma start_heartbeat_monitor_spec (w : world) :
  exists w',
    start_heartbeat_monitor w = (Ok tt, w')
    /\ svc w' = set_heartbeat_alive true (svc w)
    /\ emits (if heartbeat_alive (svc w) then [] else [StartHeartbeat]) w w'.
Proof.
  unfold start_heartbeat_monitor, bind, gets.
  destruct (heartbeat_alive (svc w)) eqn:Ha.
  - exists w. split; [reflexivity|]. split; [|apply emits_nil].
    destruct (svc w). cbn in *. now subst.
  - eexists. split; [reflexivity|]. split; [reflexivity|].
    now exists [StartHeartbeat].
Qed.

(** The gate either lets the tick proceed, quietly, or takes the [continue]
    after making sure the error flash runs. *)
Lemma network_gate_spec (w : world) :
  exists (offline : bool) (w' : world),
    network_gate env w = (Ok offline, w')
    /\ ((offline = false /\ svc w' = svc w /\ emits [] w w')
        \/ (offline = true
            /\ svc w' = set_error_flash_alive true (svc w)
            /\ emits (if error_flash_alive (svc w) then [] else [StartErrorFlash])
                 w w')).
Proof.
  unfold network_gate.
  destruct (calm_run w (Quiet_is_network_available env)
              (Total_is_network_available env)) as (up & w1 & E1 & S1 & T1).
  rewrite (bind_Ok _ E1). destruct up; cbn [negb].
  - exists false, w1. split; [reflexivity|]. left. auto.
  - destruct (calm_run w1 (Quiet_wait_for_network env 300 10)
                (Total_wait_for_network env 300 10)) as (back & w2 & E2 & S2 & T2).
    rewrite (bind_Ok _ E2). destruct back; cbn [negb].
    + destruct (calm_run w2 (Quiet_connect env) (Total_connect env))
        as (c & w3 & E3 & S3 & T3).
      rewrite (bind_Ok _ E3).
      destruct (calm_run w3 (Quiet_authenticate env) (Total_authenticate env))
        as (a & w4 & E4 & S4 & T4).
      rewrite (bind_Ok _ E4).
      exists false, w4. split; [reflexivity|]. left. split; [reflexivity|].
      split; [congruence|].
      exact (emits_trans (emits_trans (emits_trans T1 T2) T3) T4).
    + destruct (start_error_flash_spec w2) as (w3 & E3 & S3 & T3).
      rewrite (bind_Ok _ E3). unfold gets at 1. unfold bind at 1.
      destruct (sleep_spec (inject_Z (poll_interval (svc w3))) w3)
        as (w4 & E4 & S4 & T4).
      rewrite (bind_Ok _ E4).
      exists true, w4. split; [reflexivity|]. right. split; [reflexivity|].
      split; [congruence|].
      replace (error_flash_alive (svc w)) with (error_flash_alive (svc w2))
        by congruence.
      pose proof (emits_trans (emits_trans (emits_trans T1 T2) T3) T4) as H.
      cbn [app] in H. now rewrite app_nil_r in H.
Qed.

(** The light is written exactly when the wanted state differs from the
    tracked one, and the tracked state becomes the wanted one. *)
Lemma update_light_spec (should_be_on : bool) (w : world) :
  exists (ok : bool) (w' : world),
    update_light env should_be_on w = (Ok tt, w')
    /\ svc w' = set_is_busy should_be_on (svc w)
    /\ emits (if Bool.eqb should_be_on (is_busy (svc w)) then []
              else [SetState should_be_on ok]) w w'.
Proof.
  unfold update_light, gets. unfold bind at 1.
  destruct (Bool.eqb should_be_on (is_busy (svc w))) eqn:Hd; cbn [negb].
  - exists true, w. split; [reflexivity|]. split; [|apply emits_nil].
    apply eqb_prop in Hd. now rewrite set_is_busy_same.
  - unfold modify at 1. unfold bind at 1.
    set (w1 := with_svc (set_is_busy should_be_on) w).
    destruct (set_state_spec env should_be_on w1) as (ok & w2 & E2 & S2 & T2).
    exists ok, w2.
    assert (Ew : (if should_be_on then set_state env true;; ret tt
                  else set_state env false;; ret tt) w1 = (Ok tt, w2)).
    { destruct should_be_on; now rewrite (bind_Ok _ E2). }
    split; [exact Ew|]. split; [exact S2|].
    destruct T2 as (T & ET & VT). exists T. now split.
Qed.

Lemma gets_bind A B (f : world -> A) (k : A -> M B) (w : world) :
  bind (gets f) k w = k (f w) w.
Proof. reflexivity. Qed.

Lemma time_time_bind B (k : Q -> M B) (w : world) :
  bind time_time k w = k (clock w) w.
Proof. reflexivity. Qed.

(** What one pass through the loop body does to the service record and to
    the trace.  The [except] branch is never taken. *)
Lemma tick_spec (w : world) :
  exists (r : tick_result) (w' : world),
    tick env w = (Ok r, w')
    /\ match r with
       | TickOffline =>
           svc w' = set_error_flash_alive true (svc w)
           /\ emits (if error_flash_alive (svc w) then [] else [StartErrorFlash])
                w w'
       | TickDone d _ =>
           exists ok,
             svc w' = set_error_flash_alive false (set_is_busy d (svc w))
             /\ emits ((if Bool.eqb d (is_busy (svc w)) then []
                        else [SetState d ok])
                       ++ (if error_flash_alive (svc w) then [StopErrorFlash]
                           else [])) w w'
       | TickFailed _ => False
       end.
Proof.
  unfold tick, try_except.
  destruct (network_gate_spec w)
    as (offline & w1 & E1 & [(-> & S1 & T1)|(-> & S1 & T1)]);
    rewrite (bind_Ok _ E1).
  - destruct (calm_run w1 (Quiet_log_daily_events env)
                (Total_log_daily_events env)) as ([] & w2 & E2 & S2 & T2).
    rewrite (bind_Ok _ E2), gets_bind.
    destruct (calm_run w2 (Quiet_is_busy_soon env (lead_time (svc w2)))
                (Total_is_busy_soon env (lead_time (svc w2))))
      as (soon & w3 & E3 & S3 & T3).
    rewrite (bind_Ok _ E3).
    destruct (calm_run w3 (Quiet_is_currently_busy env)
                (Total_is_currently_busy env)) as (current & w4 & E4 & S4 & T4).
    rewrite (bind_Ok _ E4).
    set (d := fst soon || fst current).
    destruct (update_light_spec d w4) as (ok & w5 & E5 & S5 & T5).
    rewrite (bind_Ok _ E5).
    destruct (stop_error_flash_spec w5) as (w6 & E6 & S6 & T6).
    rewrite (bind_Ok _ E6), time_time_bind.
    destruct (sleep_spec (seconds_until_next_minute (clock w6)) w6)
      as (w7 & E7 & S7 & T7).
    rewrite (bind_Ok _ E7). cbn [ret].
    exists (TickDone d (or_else (snd soon) (snd current))), w7.
    split; [reflexivity|]. exists ok.
    assert (Hs : svc w4 = svc w) by congruence.
    split; [congruence|].
    rewrite S5, Hs in T6. rewrite Hs in T5.
    replace (error_flash_alive (set_is_busy d (svc w)))
      with (error_flash_alive (svc w)) in T6 by (now destruct (svc w)).
    pose proof (emits_trans (emits_trans (emits_trans (emits_trans
                  (emits_trans (emits_trans T1 T2) T3) T4) T5) T6) T7) as H.
    cbn [app] in H. now rewrite app_nil_r in H.
  - cbn [ret]. exists TickOffline, w1. split; [reflexivity|]. now split.
Qed.

Lemma Runs_tick : Runs (tick env).
Proof.
  intros w. destruct (tick_spec w) as (r & w' & E & H).
  exists r, w'. destruct r as [|d name|e]; [|destruct H as (ok & _ & T)|contradiction].
  - destruct H as [_ T]. eauto.
  - eauto.
Qed.

Lemma Runs_main_loop (ticks : nat) : Runs (main_loop env ticks).
Proof.
  induction ticks as [|n IH]; intros w; cbn [main_loop].
  - exists tt, w, []. split; [reflexivity|apply emits_nil].
  - rewrite gets_bind. destruct (running (svc w)).
    + destruct (Runs_tick w) as (r & w1 & V1 & E1 & T1).
      rewrite (bind_Ok _ E1).
      destruct (IH w1) as ([] & w2 & V2 & E2 & T2).
      exists tt, w2, (V1 ++ V2). split; [exact E2|exact (emits_trans T1 T2)].
    + exists tt, w, []. split; [reflexivity|apply emits_nil].
Qed.

Lemma Runs_flash (times : Z) (duration : Q) : Runs (flash env times duration).
Proof.
  intros w. destruct (cloud (tuya w) || device (tuya w)) eqn:Hh.
  - destruct (flash_spec env times duration w Hh)
      as (r & w' & E & _ & [(_ & V & _ & T)|(_ & m & V & _ & _ & T)]); eauto.
  - apply orb_false_elim in Hh. destruct Hh as [Hc Hd].
    exists false, w, []. split; [now apply flash_gives_up|apply emits_nil].
Qed.

Lemma Runs_decide_and_set_at_startup : Runs (decide_and_set_at_startup env).
Proof.
  intros w. unfold decide_and_set_at_startup. rewrite gets_bind.
  destruct (calm_run w (Quiet_is_busy_soon env (lead_time (svc w)))
              (Total_is_busy_soon env (lead_time (svc w))))
    as (soon & w1 & E1 & S1 & T1).
  rewrite (bind_Ok _ E1).
  destruct (calm_run w1 (Quiet_is_currently_busy env)
              (Total_is_currently_busy env)) as (current & w2 & E2 & S2 & T2).
  rewrite (bind_Ok _ E2).
  destruct (fst soon || fst current).
  - set (w3 := with_svc (set_is_busy true) w2).
    destruct (set_state_spec env true w3) as (ok & w4 & E4 & _ & T4).
    exists tt, w4, [SetState true ok]. split.
    + unfold modify at 1. unfold bind at 1. fold w3. now rewrite (bind_Ok _ E4).
    + pose proof (emits_trans (emits_trans T1 T2)
                    (V2 := [SetState true ok]) (w3 := w4)) as H.
      apply H. destruct T4 as (T & ET & VT). now exists T.
  - set (w3 := with_svc (set_is_busy false) w2).
    destruct (set_state_spec env false w3) as (ok & w4 & E4 & _ & T4).
    exists tt, w4, [SetState false ok]. split.
    + unfold modify at 1. unfold bind at 1. fold w3. now rewrite (bind_Ok _ E4).
    + pose proof (emits_trans (emits_trans T1 T2)
                    (V2 := [SetState false ok]) (w3 := w4)) as H.
      apply H. destruct T4 as (T & ET & VT). now exists T.
Qed.

(** [startup_sequence] returns [False] exactly when one of the two checks
    fails, and then nothing but those checks has happened. *)
Lemma startup_sequence_spec (w : world) :
  exists (started : bool) (w' : world),
    startup_sequence env w = (Ok started, w')
    /\ ((started = false /\ ~ startup_ok env w
         /\ svc w' = svc w /\ emits [] w w')
        \/ (started = true /\ startup_ok env w
            /\ error_flash_alive (svc w') = error_flash_alive (svc w)
            /\ heartbeat_alive (svc w') = heartbeat_alive (svc w)
            /\ exists V, emits V w w')).
Proof.
  unfold startup_sequence, startup_ok.
  destruct (calm_run w (Quiet_connect env) (Total_connect env))
    as (c & w1 & E1 & S1 & T1).
  rewrite (bind_Ok _ E1), E1. cbn [fst snd]. destruct c; cbn [negb].
  - destruct (calm_run w1 (Quiet_authenticate env) (Total_authenticate env))
      as (a & w2 & E2 & S2 & T2).
    rewrite (bind_Ok _ E2), E2. cbn [fst]. destruct a; cbn [negb].
    + destruct (Runs_flash 3 1 w2) as (f & w3 & V3 & E3 & T3).
      rewrite (bind_Ok _ E3).
      assert (S3 : svc w3 = svc w2).
      { destruct (cloud (tuya w2) || device (tuya w2)) eqn:Hh.
        - destruct (flash_spec env 3 1 w2 Hh) as (r' & w3' & E3' & S3' & _).
          congruence.
        - apply orb_false_elim in Hh. destruct Hh as [Hc Hd].
          rewrite (flash_gives_up env 3 1 w2 Hc Hd) in E3. congruence. }
      destruct (Runs_decide_and_set_at_startup w3) as ([] & w4 & V4 & E4 & T4).
      assert (E5 : try_except (decide_and_set_at_startup env)
                     (fun _ => modify (with_svc (set_is_busy false)) ;;
                               set_state env false ;; ret tt) w3 = (Ok tt, w4))
        by (unfold try_except; now rewrite E4).
      rewrite (bind_Ok _ E5). cbn [ret].
      exists true, w4. split; [reflexivity|]. right.
      split; [reflexivity|]. split; [now split|].
      assert (S4 : error_flash_alive (svc w4) = error_flash_alive (svc w3)
                   /\ heartbeat_alive (svc w4) = heartbeat_alive (svc w3)).
      { clear - E4. unfold decide_and_set_at_startup in E4.
        rewrite gets_bind in E4.
        destruct (calm_run w3 (Quiet_is_busy_soon env (lead_time (svc w3)))
                    (Total_is_busy_soon env (lead_time (svc w3))))
          as (soon & u1 & F1 & R1 & _).
        rewrite (bind_Ok _ F1) in E4.
        destruct (calm_run u1 (Quiet_is_currently_busy env)
                    (Total_is_currently_busy env)) as (current & u2 & F2 & R2 & _).
        rewrite (bind_Ok _ F2) in E4.
        destruct (fst soon || fst current).
        - unfold modify at 1 in E4. unfold bind at 1 in E4.
          destruct (set_state_spec env true (with_svc (set_is_busy true) u2))
            as (ok & u4 & F4 & R4 & _).
          rewrite (bind_Ok _ F4) in E4. inversion E4; subst.
          rewrite R4. cbn. rewrite R2, R1. auto.
        - unfold modify at 1 in E4. unfold bind at 1 in E4.
          destruct (set_state_spec env false (with_svc (set_is_busy false) u2))
            as (ok & u4 & F4 & R4 & _).
          rewrite (bind_Ok _ F4) in E4. inversion E4; subst.
          rewrite R4. cbn. rewrite R2, R1. auto. }
      destruct S4 as [S4a S4b].
      split; [congruence|]. split; [congruence|].
      exists (([] ++ []) ++ V3 ++ V4).
      exact (emits_trans (emits_trans T1 T2) (emits_trans T3 T4)).
    + cbn [ret]. exists false, w2. split; [reflexivity|]. left.
      split; [reflexivity|]. split; [intros [_ H]; discriminate H|].
      split; [congruence|exact (emits_trans T1 T2)].
  - cbn [ret]. exists false, w1. split; [reflexivity|]. left.
    split; [reflexivity|]. split; [intros [H _]; discriminate H|].
    split; [exact S1|exact T1].
Qed.

End Loop.

Lemma tick_done_inv (env : oracle) (w w' : world) (d : bool)
  (name : option string) (V : list action) :
  tick env w = (Ok (TickDone d name), w') ->
  emits V w w' ->
  exists ok,
    svc w' = set_error_flash_alive false (set_is_busy d (svc w))
    /\ V = (if Bool.eqb d (is_busy (svc w)) then [] else [SetState d ok])
           ++ (if error_flash_alive (svc w) then [StopErrorFlash] else []).
Proof.
  intros E T. destruct (tick_spec env w) as (r & w1 & E1 & H).
  rewrite E in E1. inversion E1; subst r w1. destruct H as (ok & S1 & T1).
  exists ok. split; [exact S1|exact (emits_functional T T1)].
Qed.

Lemma device_writes_app (V1 V2 : list action) :
  device_writes (V1 ++ V2) = device_writes V1 ++ device_writes V2.
Proof.
  induction V1 as [|a V1 IH]; [reflexivity|].
  destruct a; cbn; now rewrite ?IH.
Qed.

(** C3. Of two consecutive ticks that compute the same desired state [d],
    the first issues a device write exactly when [d] differs from the
    tracked state (that single write, [set_state(d)]), after which [d] is
    the tracked state, and the second issues none, whatever the event names
    of the two ticks are: one write in total, at the transition. *)
Theorem unchanged_state_is_written_once :
  forall (env : oracle) (w w1 w2 : world) (d : bool)
         (name1 name2 : option string) (V1 V2 : list action),
    tick env w = (Ok (TickDone d name1), w1) ->
    tick env w1 = (Ok (TickDone d name2), w2) ->
    emits V1 w w1 ->
    emits V2 w1 w2 ->
    device_writes V1 = (if Bool.eqb d (is_busy (svc w)) then [] else [d])
    /\ is_busy (svc w1) = d
    /\ device_writes V2 = []
    /\ (d <> is_busy (svc w) -> device_writes (V1 ++ V2) = [d]).
Proof.
  intros env w w1 w2 d name1 name2 V1 V2 E1 E2 T1 T2.
  destruct (@tick_done_inv env w w1 d name1 V1 E1 T1) as (ok1 & S1 & ->).
  destruct (@tick_done_inv env w1 w2 d name2 V2 E2 T2) as (ok2 & S2 & ->).
  assert (Hb : is_busy (svc w1) = d) by (rewrite S1; reflexivity).
  assert (H1 : device_writes
                 ((if Bool.eqb d (is_busy (svc w)) then []
                   else [SetState d ok1])
                  ++ (if error_flash_alive (svc w) then [StopErrorFlash] else []))
               = (if Bool.eqb d (is_busy (svc w)) then [] else [d])).
  { destruct (Bool.eqb d (is_busy (svc w))), (error_flash_alive (svc w));
      reflexivity. }
  assert (H2 : device_writes
                 ((if Bool.eqb d (is_busy (svc w1)) then []
                   else [SetState d ok2])
                  ++ (if error_flash_alive (svc w1) then [StopErrorFlash] else []))
               = []).
  { rewrite Hb, eqb_reflx. now destruct (error_flash_alive (svc w1)). }
  split; [exact H1|]. split; [exact Hb|]. split; [exact H2|].
  intros Hd. rewrite device_writes_app, H1, H2.
  destruct (Bool.eqb d (is_busy (svc w))) eqn:Hq; [|reflexivity].
  apply eqb_prop in Hq. contradiction.
Qed.

Lemma unchanged_state_is_written_once_witness :
  let first := snd (tick meeting linked) in
  let second := snd (tick meeting first) in
  device_writes (visible (since linked first)) = [true]
  /\ is_busy (svc first) = true
  /\ device_writes (visible (since first second)) = []
  /\ (true <> is_busy (svc linked) ->
      device_writes (visible (since linked first)
                     ++ visible (since first second)) = [true]).
Proof.
  intros first second.
  apply (@unchanged_state_is_written_once meeting linked first second true
           (Some "Standup"%string) (Some "Standup"%string)).
  - vm_compute. reflexivity.
  - vm_compute. reflexivity.
  - exists (since linked first). split; vm_compute; reflexivity.
  - exists (since first second). split; vm_compute; reflexivity.
Defined.

(** C8 (as amended). In a tick that changes the device state while the
    error-flash thread is alive, the main loop first issues its
    [set_state] call, with the thread still alive, and stops the thread
    only afterwards, at the end of the tick. *)
Theorem error_flash_is_stopped_after_the_write :
  forall (env : oracle) (w w' : world) (d : bool) (name : option string)
         (V : list action),
    tick env w = (Ok (TickDone d name), w') ->
    d <> is_busy (svc w) ->
    error_flash_alive (svc w) = true ->
    emits V w w' ->
    (exists ok, V = [SetState d ok; StopErrorFlash])
    /\ flashing_at_writes true V = [true]
    /\ error_flash_alive (svc w') = false.
Proof.
  intros env w w' d name V E Hd Ha T.
  destruct (@tick_done_inv env w w' d name V E T) as (ok & S1 & ->).
  rewrite Ha. destruct (Bool.eqb d (is_busy (svc w))) eqn:Hq.
  - apply eqb_prop in Hq. contradiction.
  - split; [now exists ok|]. split; [reflexivity|]. rewrite S1. reflexivity.
Qed.

Lemma error_flash_is_stopped_after_the_write_witness :
  let w' := snd (tick meeting degraded) in
  (exists ok, visible (since degraded w') = [SetState true ok; StopErrorFlash])
  /\ flashing_at_writes true (visible (since degraded w')) = [true]
  /\ error_flash_alive (svc w') = false.
Proof.
  intros w'.
  apply (@error_flash_is_stopped_after_the_write meeting degraded w' true
           (Some "Standup"%string)).
  - vm_compute. reflexivity.
  - discriminate.
  - reflexivity.
  - exists (trace w'). split; vm_compute; reflexivity.
Defined.

(** C8, refuted as stated: with the error flash running and a meeting about
    to start, the write is issued while the thread is alive. *)
Lemma flash_is_not_stopped_before_write : ~ flash_stopped_before_write.
Proof.
  intros H.
  pose (w' := snd (tick meeting degraded)).
  specialize (H meeting degraded w' true (Some "Standup"%string)
                [SetState true true; StopErrorFlash]).
  assert (F : Forall (fun alive => alive = false) [true]).
  { apply H.
    - vm_compute. reflexivity.
    - discriminate.
    - exists (trace w'). split; vm_compute; reflexivity. }
  inversion F. discriminate.
Qed.

(** C9. [run] returns.  When one of the two startup checks fails it does
    nothing more than log the failure and start the error flash: no
    heartbeat, no device write, no pass through the monitoring loop, however
    long the service would otherwise have run.  When both checks pass the
    monitoring loop is reached. *)
Theorem failed_startup_never_reaches_running :
  forall (env : oracle) (ticks : nat) (w : world),
    error_flash_alive (svc w) = false ->
    exists (w' : world) (V : list action),
      run env ticks w = (Ok tt, w')
      /\ emits V w w'
      /\ (startup_ok env w -> reaches_running V)
      /\ (~ startup_ok env w ->
          V = [Log "Startup failed - starting error flash"; StartErrorFlash]
          /\ ~ reaches_running V
          /\ svc w' = set_error_flash_alive true (svc w)).
Proof.
  intros env ticks w Ha. unfold run.
  destruct (startup_sequence_spec env w)
    as (started & w1 & E1 & [(-> & Hno & S1 & T1)|(-> & Hok & S1 & SH & V1 & T1)]);
    rewrite (bind_Ok _ E1); cbn [negb].
  - unfold emit at 1, modify at 1. unfold bind at 1.
    set (w2 := with_trace _ w1).
    destruct (start_error_flash_spec w2) as (w3 & E3 & S3 & T3).
    exists w3, [Log "Startup failed - starting error flash"; StartErrorFlash].
    split; [exact E3|]. split.
    + change [Log "Startup failed - starting error flash"; StartErrorFlash]
        with ([] ++ [Log "Startup failed - starting error flash"]
                 ++ [StartErrorFlash]).
      refine (emits_trans T1 (emits_trans (w2 := w2) _ _)).
      * now exists [Log "Startup failed - starting error flash"].
      * replace (error_flash_alive (svc w2)) with false in T3; [exact T3|].
        change (svc w2) with (svc w1). now rewrite S1, Ha.
    + split; [intros H; contradiction|]. intros _.
      split; [reflexivity|]. split.
      * unfold reaches_running. cbn. intros [H|[H|[]]]; discriminate H.
      * rewrite S3. change (svc w2) with (svc w1). now rewrite S1.
  - destruct (start_heartbeat_monitor_spec w1) as (w2 & E2 & S2 & T2).
    rewrite (bind_Ok _ E2).
    unfold emit at 1, modify at 1. unfold bind at 1.
    set (w3 := with_trace _ w2). rewrite time_time_bind.
    assert (T3 : emits [Log "Starting monitoring loop (checking on the minute)"]
                   w2 w3)
      by (now exists [Log "Starting monitoring loop (checking on the minute)"]).
    assert (H4 : exists w4,
               (if Qlt_bool 1 (seconds_until_next_minute (clock w3))
                then sleep (seconds_until_next_minute (clock w3)) else ret tt) w3
               = (Ok tt, w4) /\ emits [] w3 w4).
    { destruct (Qlt_bool 1 (seconds_until_next_minute (clock w3))).
      - destruct (sleep_spec (seconds_until_next_minute (clock w3)) w3)
          as (w4 & E4 & _ & T4). now exists w4.
      - exists w3. split; [reflexivity|apply emits_nil]. }
    destruct H4 as (w4 & E4 & T4). rewrite (bind_Ok _ E4).
    destruct (Runs_main_loop env ticks w4) as ([] & w5 & V5 & E5 & T5).
    exists w5. eexists. split; [exact E5|]. split.
    + exact (emits_trans (emits_trans (emits_trans (emits_trans T1 T2) T3) T4) T5).
    + split; [|intros H; contradiction]. intros _. unfold reaches_running.
      apply in_or_app. left. apply in_or_app. left. apply in_or_app. right.
      now left.
Qed.

Lemma failed_startup_never_reaches_running_witness :
  exists (w' : world) (V : list action),
    run dead 5 boot = (Ok tt, w')
    /\ emits V boot w'
    /\ (startup_ok dead boot -> reaches_running V)
    /\ (~ startup_ok dead boot ->
        V = [Log "Startup failed - starting error flash"; StartErrorFlash]
        /\ ~ reaches_running V
        /\ svc w' = set_error_flash_alive true (svc boot)).
Proof. apply (failed_startup_never_reaches_running dead 5 boot). reflexivity. Defined.

(** ** What a successful retry leaves behind *)

Section RetryOutcome.

Variable env : oracle.
Variable A : Type.
Variable func : M A.
Variable max_retries : Z.
Variables initial_delay max_delay : Q.

Lemma retry_attempt_Some (i : nat) (w w' : world) (v : A) :
  retry_attempt env func max_retries initial_delay max_delay i w
  = (Ok (Some v), w') ->
  func w = (Ok v, w').
Proof.
  unfold retry_attempt, try_except, bind.
  destruct (func w) as [[x|e] w1].
  - cbn. intros H. now inversion H.
  - destruct (Z.of_nat i =? max_retries - 1)%Z; [cbn; intros H; discriminate H|].
    destruct (power_overflows i); cbn; intros H; discriminate H.
Qed.

Lemma for_from_retry_Some (n : nat) :
  forall (i : nat) (w w' : world) (v : A),
    for_from i n (retry_attempt env func max_retries initial_delay max_delay) w
    = (Ok (Some v), w') ->
    exists w0, func w0 = (Ok v, w').
Proof.
  induction n as [|n IH]; intros i w w' v; cbn [for_from].
  - intros H. discriminate H.
  - unfold bind at 1.
    destruct (retry_attempt env func max_retries initial_delay max_delay i w)
      as [[[x|]|e] w1] eqn:E.
    + cbn. intros H. inversion H; subst. exists w.
      now apply retry_attempt_Some with (i := i).
    + apply IH.
    + intros H. discriminate H.
Qed.

(** The value and the final world of a successful retry are those of the
    last, successful invocation. *)
Lemma retry_Ok_inv (w w' : world) (v : A) :
  retry_with_exponential_backoff env func max_retries initial_delay max_delay w
  = (Ok v, w') ->
  exists w0, func w0 = (Ok v, w').
Proof.
  unfold retry_with_exponential_backoff, for_range. unfold bind at 1.
  destruct (for_from 0 (Z.to_nat max_retries)
              (retry_attempt env func max_retries initial_delay max_delay) w)
    as [[[x|]|e] w1] eqn:E; cbn; intros H; try discriminate H.
  inversion H; subst. now apply for_from_retry_Some in E.
Qed.

Lemma retry_first_try (w w' : world) (v : A) :
  (1 <= max_retries)%Z ->
  func w = (Ok v, w') ->
  retry_with_exponential_backoff env func max_retries initial_delay max_delay w
  = (Ok v, w').
Proof.
  intros Hm H. unfold retry_with_exponential_backoff, for_range.
  destruct (Z.to_nat max_retries) as [|n] eqn:En; [lia|].
  cbn [for_from]. unfold bind, retry_attempt, try_except, bind. now rewrite H.
Qed.

End RetryOutcome.

(** ** Connection health *)

Lemma Qlt_bool_iff (x y : Q) : Qlt_bool x y = true <-> x < y.
Proof.
  unfold Qlt_bool. rewrite negb_true_iff. split.
  - intros H. apply Qnot_le_lt. intros L. apply Qle_bool_iff in L. congruence.
  - intros H. destruct (Qle_bool y x) eqn:E; [|reflexivity].
    apply Qle_bool_iff in E. exfalso. exact (Qlt_not_le _ _ H E).
Qed.

Lemma truthy_Some (t : Q) : ~ t == 0 -> truthy (Some t) = true.
Proof.
  intros H. cbn. destruct (Qeq_bool t 0) eqn:E; [|reflexivity].
  apply Qeq_bool_iff in E. contradiction.
Qed.

Lemma connection_stale_iff (t : TuyaController) (marked now : Q) :
  connection_verified t = true ->
  last_successful_connection t = Some marked ->
  ~ marked == 0 ->
  (connection_stale t now = true <-> 300 < now - marked).
Proof.
  intros Hv Hl Hm. unfold connection_stale.
  rewrite Hv, Hl, (truthy_Some Hm). cbn. apply Qlt_bool_iff.
Qed.

Lemma auth_stale_iff (c : GoogleCalendarMonitor) (marked now : Q) :
  service c = true ->
  last_successful_auth c = Some marked ->
  ~ marked == 0 ->
  (auth_stale c now = true <-> 1800 < now - marked).
Proof.
  intros Hv Hl Hm. unfold auth_stale.
  rewrite Hv, Hl, (truthy_Some Hm). cbn. apply Qlt_bool_iff.
Qed.

Lemma not_past (threshold marked : Q) :
  0 < threshold -> ~ threshold < marked - marked.
Proof.
  intros Hp H. assert (E : marked - marked == 0) by ring.
  rewrite E in H. exact (Qlt_not_le _ _ H (Qlt_le_weak _ _ Hp)).
Qed.

Section Health.

Variable env : oracle.

Lemma _connect_marks (w w' : world) :
  _connect env w = (Ok true, w') ->
  connection_verified (tuya w') = true
  /\ last_successful_connection (tuya w') = Some (clock w').
Proof.
  unfold _connect, bind, gets, modify, ask, time_time, raise, ret.
  destruct (use_cloud_api (tuya w)); cbn.
  - destruct (cloud_getstatus env (calls w)) as [st|e]; cbn;
      [|intros H; discriminate H].
    destruct (success st && nonempty (result_items st));
      [|intros H; discriminate H].
    destruct (find_switch (result_items st)); intros H; inversion H.
    cbn. auto.
  - destruct (device_status env (calls w)) as [[[v|]|]|e]; cbn;
      intros H; inversion H. cbn. auto.
Qed.

Lemma connect_marks (w w' : world) :
  connect env w = (Ok true, w') ->
  connection_verified (tuya w') = true
  /\ last_successful_connection (tuya w') = Some (clock w').
Proof.
  unfold connect, try_except.
  destruct (retry_with_exponential_backoff env (_connect env) 3 1 60 w)
    as [[v|e] w1] eqn:E; cbn.
  - intros H. inversion H; subst. apply retry_Ok_inv in E.
    destruct E as [w0 E]. exact (_connect_marks _ E).
  - intros H. discriminate H.
Qed.

Lemma authenticate_marks (w w' : world) :
  authenticate env w = (Ok true, w') ->
  service (calendar w') = true
  /\ last_successful_auth (calendar w') = Some (clock w').
Proof.
  unfold authenticate, try_except.
  destruct (retry_with_exponential_backoff env (_authenticate env) 3 1 60 w)
    as [[v|e] w1] eqn:E; cbn.
  - intros H. inversion H; subst. apply retry_Ok_inv in E.
    destruct E as [w0 E]. revert E.
    unfold _authenticate, bind, ask, time_time, gets, modify, ret.
    destruct (google_auth env (calls w0)); cbn; intros H'; inversion H'.
    cbn. auto.
  - intros H. discriminate H.
Qed.

(** A fresh cloud connection is only probed: a successful probe renews the
    timestamp and no reconnect takes place. *)
Lemma ensure_connection_when_fresh (w : world) (st : cloud_status) :
  connection_stale (tuya w) (clock w) = false ->
  use_cloud_api (tuya w) && cloud (tuya w) = true ->
  cloud_getstatus env (calls w) = Ok st ->
  success st = true ->
  ensure_connection env w
  = (Ok true, with_tuya (set_last_successful_connection (clock w))
                (with_calls S w)).
Proof.
  intros Hf Hc Hs Hok. unfold ensure_connection.
  rewrite gets_bind, time_time_bind, Hf, Hc.
  unfold try_except, ask. unfold bind at 1. now rewrite Hs, Hok.
Qed.

(** A stale connection is reconnected before anything else is tried. *)
Lemma ensure_connection_when_stale (w : world) :
  connection_stale (tuya w) (clock w) = true ->
  ensure_connection env w = connect env w.
Proof.
  intros H. unfold ensure_connection. rewrite gets_bind, time_time_bind.
  now rewrite H.
Qed.

Lemma ensure_authenticated_when_stale (w : world) :
  auth_stale (calendar w) (clock w) = true ->
  ensure_authenticated env w = authenticate env w.
Proof.
  intros H. unfold ensure_authenticated. rewrite gets_bind, time_time_bind.
  now rewrite H.
Qed.

(** The handle [connect] leaves behind is the one the connection test
    uses. *)
Lemma _connect_handle (w w' : world) :
  _connect env w = (Ok true, w') ->
  if use_cloud_api (tuya w') then cloud (tuya w') = true
  else device (tuya w') = true.
Proof.
  unfold _connect, bind, gets, modify, ask, time_time, raise, ret.
  destruct (use_cloud_api (tuya w)) eqn:U; cbn.
  - destruct (cloud_getstatus env (calls w)) as [st|e]; cbn;
      [|intros H; discriminate H].
    destruct (success st && nonempty (result_items st));
      [|intros H; discriminate H].
    destruct (find_switch (result_items st)); intros H; inversion H.
    cbn. now rewrite U.
  - destruct (device_status env (calls w)) as [[[v|]|]|e]; cbn;
      intros H; inversion H. cbn. now rewrite U.
Qed.

Lemma connect_handle (w w' : world) :
  connect env w = (Ok true, w') ->
  if use_cloud_api (tuya w') then cloud (tuya w') = true
  else device (tuya w') = true.
Proof.
  unfold connect, try_except.
  destruct (retry_with_exponential_backoff env (_connect env) 3 1 60 w)
    as [[v|e] w1] eqn:E; cbn.
  - intros H. inversion H; subst. apply retry_Ok_inv in E.
    destruct E as [w0 E]. exact (_connect_handle _ E).
  - intros H. discriminate H.
Qed.

Lemma authenticate_credentials (w w' : world) :
  authenticate env w = (Ok true, w') -> credentials (calendar w') = true.
Proof.
  unfold authenticate, try_except.
  destruct (retry_with_exponential_backoff env (_authenticate env) 3 1 60 w)
    as [[v|e] w1] eqn:E; cbn.
  - intros H. inversion H; subst. apply retry_Ok_inv in E.
    destruct E as [w0 E]. revert E.
    unfold _authenticate, bind, ask, time_time, gets, modify, ret.
    destruct (google_auth env (calls w0)); cbn; intros H'; inversion H'.
    reflexivity.
  - intros H. discriminate H.
Qed.

(** A fresh connection whose test is answered is not reconnected, in cloud
    mode and in local mode alike. *)
Lemma ensure_connection_when_probed (w : world) :
  connection_stale (tuya w) (clock w) = false ->
  (if use_cloud_api (tuya w) then cloud (tuya w) = true
   else device (tuya w) = true) ->
  probe_answers env w ->
  ensure_connection env w = (Ok true, probed w).
Proof.
  intros Hf Hh Hp. unfold probe_answers in Hp. unfold ensure_connection.
  rewrite gets_bind, time_time_bind, Hf.
  destruct (use_cloud_api (tuya w)); cbn [andb].
  - destruct Hp as (st & Hs & Hok). rewrite Hh.
    unfold try_except, ask. unfold bind at 1. now rewrite Hs, Hok.
  - destruct Hp as (dps & Hs). rewrite Hh.
    unfold try_except, ask. unfold bind at 1. now rewrite Hs.
Qed.

(** A fresh authentication with unexpired credentials is kept. *)
Lemma ensure_authenticated_when_fresh (w : world) :
  auth_stale (calendar w) (clock w) = false ->
  credentials (calendar w) = true ->
  creds_expired env (calls w) = false ->
  ensure_authenticated env w = (Ok true, with_calls S w).
Proof.
  intros Hf Hc He. unfold ensure_authenticated.
  rewrite gets_bind, time_time_bind, Hf, Hc.
  unfold ask, bind. now rewrite He.
Qed.

End Health.

(** C6 (as amended). After [connect] has succeeded at a clock reading
    [t] other than zero, [ensure_connection] keeps the connection while at
    most 300 seconds have elapsed since [t], right after the success
    included: it only tests it, and when the test is answered it returns
    [True] with nothing but the timestamp renewed.  Once strictly more than
    300 seconds have elapsed it reconnects before anything else.  The same
    holds of [authenticate] and [ensure_authenticated] with 1800 seconds:
    within them an authentication whose credentials have not expired is
    kept as it is, past them it is redone. *)
Theorem health_is_stale_past_the_threshold :
  forall env : oracle,
    (forall w w' u : world,
        connect env w = (Ok true, w') ->
        ~ clock w' == 0 ->
        tuya u = tuya w' ->
        (clock u - clock w' <= 300 ->
         probe_answers env u ->
         ensure_connection env u = (Ok true, probed u))
        /\ (300 < clock u - clock w' ->
            ensure_connection env u = connect env u))
    /\ (forall w w' u : world,
        authenticate env w = (Ok true, w') ->
        ~ clock w' == 0 ->
        calendar u = calendar w' ->
        (clock u - clock w' <= 1800 ->
         creds_expired env (calls u) = false ->
         ensure_authenticated env u = (Ok true, with_calls S u))
        /\ (1800 < clock u - clock w' ->
            ensure_authenticated env u = authenticate env u)).
Proof.
  intros env. split.
  - intros w w' u Hd Zd Hu.
    destruct (connect_marks _ _ Hd) as [Vd Ld].
    pose proof (connect_handle _ _ Hd) as Hh.
    split.
    + intros Hfresh Hp. apply ensure_connection_when_probed.
      * rewrite Hu.
        destruct (connection_stale (tuya w') (clock u)) eqn:E; [|reflexivity].
        apply (connection_stale_iff _ (clock u) Vd Ld Zd) in E.
        exfalso. exact (Qlt_not_le _ _ E Hfresh).
      * now rewrite Hu.
      * exact Hp.
    + intros Hlate. apply ensure_connection_when_stale. rewrite Hu.
      now apply (connection_stale_iff _ (clock u) Vd Ld Zd).
  - intros w w' u Hc Zc Hu.
    destruct (authenticate_marks _ _ Hc) as [Vc Lc].
    pose proof (authenticate_credentials _ _ Hc) as Cc.
    split.
    + intros Hfresh He. apply ensure_authenticated_when_fresh.
      * rewrite Hu.
        destruct (auth_stale (calendar w') (clock u)) eqn:E; [|reflexivity].
        apply (auth_stale_iff _ (clock u) Vc Lc Zc) in E.
        exfalso. exact (Qlt_not_le _ _ E Hfresh).
      * now rewrite Hu.
      * exact He.
    + intros Hlate. apply ensure_authenticated_when_stale. rewrite Hu.
      now apply (auth_stale_iff _ (clock u) Vc Lc Zc).
Qed.

Lemma health_is_stale_past_the_threshold_witness :
  let wd' := snd (connect calm boot) in
  let wc' := snd (authenticate calm boot) in
  (ensure_connection calm wd' = (Ok true, probed wd')
   /\ ensure_connection calm (with_clock (fun _ => 1300) wd')
      = (Ok true, probed (with_clock (fun _ => 1300) wd'))
   /\ ensure_connection calm (with_clock (fun _ => 1301) wd')
      = connect calm (with_clock (fun _ => 1301) wd'))
  /\ (ensure_authenticated calm wc' = (Ok true, with_calls S wc')
      /\ ensure_authenticated calm (with_clock (fun _ => 2800) wc')
         = (Ok true, with_calls S (with_clock (fun _ => 2800) wc'))
      /\ ensure_authenticated calm (with_clock (fun _ => 2801) wc')
         = authenticate calm (with_clock (fun _ => 2801) wc')).
Proof.
  intros wd' wc'.
  destruct (health_is_stale_past_the_threshold calm) as [Hd Hc].
  assert (Cd : connect calm boot = (Ok true, wd')) by (vm_compute; reflexivity).
  assert (Cc : authenticate calm boot = (Ok true, wc'))
    by (vm_compute; reflexivity).
  assert (Zd : ~ clock wd' == 0) by (vm_compute; discriminate).
  assert (Zc : ~ clock wc' == 0) by (vm_compute; discriminate).
  split; (split; [|split]).
  - apply (proj1 (Hd boot wd' wd' Cd Zd eq_refl)).
    + vm_compute. discriminate.
    + eexists. split; reflexivity.
  - apply (proj1 (Hd boot wd' (with_clock (fun _ => 1300) wd') Cd Zd eq_refl)).
    + vm_compute. discriminate.
    + eexists. split; reflexivity.
  - apply (proj2 (Hd boot wd' (with_clock (fun _ => 1301) wd') Cd Zd eq_refl)).
    vm_compute. reflexivity.
  - apply (proj1 (Hc boot wc' wc' Cc Zc eq_refl)).
    + vm_compute. discriminate.
    + reflexivity.
  - apply (proj1 (Hc boot wc' (with_clock (fun _ => 2800) wc') Cc Zc eq_refl)).
    + vm_compute. discriminate.
    + reflexivity.
  - apply (proj2 (Hc boot wc' (with_clock (fun _ => 2801) wc') Cc Zc eq_refl)).
    vm_compute. reflexivity.
Defined.

(** C6, refuted as stated: exactly 300 seconds after the connection was
    verified [ensure_connection] does not reconnect.  It tests the
    connection, is satisfied with an answer that reports success, and
    returns [True], where a reconnect would have found no switch in that
    answer and failed. *)
Lemma no_reconnect_at_the_threshold : ~ reconnects_from_the_threshold_on.
Proof.
  intros H.
  pose (w' := snd (connect terse boot)).
  pose (u := with_clock (fun _ => 1300) w').
  assert (E : ensure_connection terse u = connect terse u).
  { apply (H terse boot w' u).
    - vm_compute. reflexivity.
    - vm_compute. discriminate.
    - reflexivity.
    - vm_compute. discriminate. }
  apply (f_equal fst) in E. vm_compute in E. discriminate E.
Qed.

(** ** The calendar monitor *)

Lemma find_none_iff (evs : list event) :
  find is_opaque evs = None <-> forall e, In e evs -> is_opaque e = false.
Proof.
  split.
  - intros H e. now apply find_none.
  - intros H. destruct (find is_opaque evs) as [e|] eqn:E; [|reflexivity].
    apply find_some in E. destruct E as [Hin Ho]. rewrite (H e Hin) in Ho.
    discriminate Ho.
Qed.

(** Busy exactly when some event of the list is opaque. *)
Lemma first_opaque_busy_iff (evs : list event) :
  fst (first_opaque evs) = true <-> exists e, In e evs /\ is_opaque e = true.
Proof.
  unfold first_opaque. destruct (find is_opaque evs) as [e|] eqn:E; cbn.
  - split; [|reflexivity]. intros _. exists e. now apply find_some in E.
  - split; [discriminate|]. intros (e & Hin & Ho).
    rewrite (proj1 (find_none_iff evs) E e Hin) in Ho. discriminate Ho.
Qed.

Lemma first_opaque_head (before after : list event) (e : event) :
  (forall x, In x before -> is_opaque x = false) ->
  is_opaque e = true ->
  first_opaque (before ++ e :: after) = (true, Some (summary_or "Busy" e)).
Proof.
  intros Hb He. unfold first_opaque.
  induction before as [|x before IH]; cbn.
  - now rewrite He.
  - rewrite (Hb x (or_introl eq_refl)). apply IH.
    intros y Hy. apply Hb. now right.
Qed.

Lemma scan_opaque_loop (evs : list event) (w : world) :
  for_each evs scan_opaque w
  = (Ok (match find is_opaque evs with
         | Some e => Some (true, Some (summary_or "Busy" e))
         | None => None
         end), w).
Proof.
  induction evs as [|e evs IH]; cbn [for_each find]; [reflexivity|].
  unfold bind, scan_opaque. destruct (is_opaque e); cbn; [reflexivity|exact IH].
Qed.

Lemma scan_current_Some (now : Q) (e : event) (w w' : world)
  (found : bool * option string) :
  scan_current now e w = (Ok (Some found), w') ->
  is_opaque e = true /\ found = (true, Some (summary_or "Busy" e)).
Proof.
  unfold scan_current, bind, lift, ret.
  destruct (parse_when (start_ e)) as [s|]; [|intros H; discriminate H].
  destruct (parse_when (end_ e)) as [f|]; [|intros H; discriminate H].
  destruct (datetime_le s {| wall := now; tz := tz s |}) as [[|]|];
    try (intros H; discriminate H).
  destruct (datetime_le {| wall := now; tz := tz s |} f) as [[|]|];
    try (intros H; discriminate H).
  destruct (is_opaque e); intros H; inversion H. auto.
Qed.

Lemma scan_current_loop (now : Q) (evs : list event) :
  forall (w w' : world) (r : option (bool * option string)),
    (forall e, In e evs -> is_opaque e = false) ->
    for_each evs (scan_current now) w = (Ok r, w') ->
    r = None.
Proof.
  induction evs as [|e evs IH]; intros w w' r Hall; cbn [for_each].
  - intros H. now inversion H.
  - unfold bind at 1.
    destruct (scan_current now e w) as [[[found|]|x] w1] eqn:E.
    + apply scan_current_Some in E. destruct E as [Ho _].
      rewrite (Hall e (or_introl eq_refl)) in Ho. discriminate Ho.
    + apply IH. intros y Hy. apply Hall. now right.
    + intros H. discriminate H.
Qed.

Section Calendar.

Variable env : oracle.

Lemma _check_busy_soon_spec (lead : Z) (w : world) (evs : list event) :
  events_list env (calls w) (clock w) (clock w + inject_Z lead * 60) = Ok evs ->
  _check_busy_soon env lead w = (Ok (first_opaque evs), with_calls S w).
Proof.
  intros H. unfold _check_busy_soon. rewrite time_time_bind.
  unfold ask. unfold bind at 1. rewrite H.
  unfold bind. rewrite scan_opaque_loop. unfold first_opaque.
  now destruct (find is_opaque evs).
Qed.

Lemma _check_busy_soon_inv (lead : Z) (w w' : world) (v : bool * option string) :
  _check_busy_soon env lead w = (Ok v, w') ->
  exists evs,
    events_list env (calls w) (clock w) (clock w + inject_Z lead * 60) = Ok evs
    /\ v = first_opaque evs.
Proof.
  destruct (events_list env (calls w) (clock w) (clock w + inject_Z lead * 60))
    as [evs|e] eqn:E.
  - rewrite (_check_busy_soon_spec _ _ E). intros H. inversion H. now exists evs.
  - unfold _check_busy_soon. rewrite time_time_bind.
    unfold ask. unfold bind at 1. rewrite E. intros H. discriminate H.
Qed.

Lemma _check_currently_busy_inv (w w' : world) (v : bool * option string) :
  only_transparent env ->
  _check_currently_busy env w = (Ok v, w') ->
  v = (false, None).
Proof.
  intros Hall. unfold _check_currently_busy. rewrite time_time_bind.
  unfold ask. unfold bind at 1.
  destruct (events_list env (calls w) (clock w) (clock w)) as [evs|e] eqn:E;
    [|intros H; discriminate H].
  unfold bind.
  destruct (for_each evs (scan_current (clock w)) (with_calls S w))
    as [[r|x] w1] eqn:F; [|intros H; discriminate H].
  apply scan_current_loop in F; [|intros e He; exact (Hall _ _ _ _ _ E He)].
  subst r. cbn. intros H. now inversion H.
Qed.

(** Transparent events never make either query report busy. *)
Lemma transparent_events_never_busy (lead : Z) (w : world) :
  only_transparent env ->
  (exists s w', is_busy_soon env lead w = (Ok (false, s), w'))
  /\ (exists s w', is_currently_busy env w = (Ok (false, s), w')).
Proof.
  intros Hall. split.
  - unfold is_busy_soon.
    destruct (calm_run w (Quiet_ensure_authenticated env)
                (Total_ensure_authenticated env)) as (a & w1 & E1 & _ & _).
    rewrite (bind_Ok _ E1). destruct a; cbn [negb]; [|do 2 eexists; reflexivity].
    unfold try_except.
    destruct (retry_with_exponential_backoff env (_check_busy_soon env lead)
                3 1 60 w1) as [[v|e] w2] eqn:E.
    + apply retry_Ok_inv in E. destruct E as [w0 E].
      apply _check_busy_soon_inv in E. destruct E as (evs & Hev & ->).
      exists None, w2. f_equal. f_equal. unfold first_opaque.
      replace (find is_opaque evs) with (@None event); [reflexivity|].
      symmetry. apply find_none_iff. intros e He. exact (Hall _ _ _ _ _ Hev He).
    + destruct e; do 2 eexists; reflexivity.
  - unfold is_currently_busy.
    destruct (calm_run w (Quiet_ensure_authenticated env)
                (Total_ensure_authenticated env)) as (a & w1 & E1 & _ & _).
    rewrite (bind_Ok _ E1). destruct a; cbn [negb]; [|do 2 eexists; reflexivity].
    unfold try_except.
    destruct (retry_with_exponential_backoff env (_check_currently_busy env)
                3 1 60 w1) as [[v|e] w2] eqn:E.
    + apply retry_Ok_inv in E. destruct E as [w0 E].
      apply (_check_currently_busy_inv _ Hall) in E. subst v.
      do 2 eexists; reflexivity.
    + do 2 eexists; reflexivity.
Qed.

(** Once authenticated, the answer of the calendar to the window query
    decides [is_busy_soon]. *)
Lemma is_busy_soon_spec (lead : Z) (w w1 : world) (evs : list event) :
  ensure_authenticated env w = (Ok true, w1) ->
  events_list env (calls w1) (clock w1) (clock w1 + inject_Z lead * 60) = Ok evs ->
  is_busy_soon env lead w = (Ok (first_opaque evs), with_calls S w1).
Proof.
  intros Ha Hev. unfold is_busy_soon. rewrite (bind_Ok _ Ha). cbn [negb].
  unfold try_except.
  rewrite (@retry_first_try env _ (_check_busy_soon env lead) 3 1 60 w1
             (with_calls S w1) (first_opaque evs)); [reflexivity|lia|].
  now apply _check_busy_soon_spec.
Qed.

End Calendar.

(** The opaque test of the code is the rule of the specification. *)
Lemma is_opaque_marked (e : event) : is_opaque e = true <-> marked_opaque e.
Proof.
  unfold is_opaque, marked_opaque. destruct (transparency e) as [t|].
  - rewrite String.eqb_eq. split.
    + intros ->. now right.
    + intros [H|H]; [discriminate H | now inversion H].
  - split; [now left | reflexivity].
Qed.

Lemma is_opaque_unmarked (e : event) : is_opaque e = false <-> ~ marked_opaque e.
Proof.
  rewrite <- is_opaque_marked. destruct (is_opaque e); split; intros H;
    try reflexivity; try discriminate H; try (intros H'; discriminate H').
  now contradiction H.
Qed.

Lemma no_event_marked_opaque_only_transparent (env : oracle) :
  no_event_marked_opaque env -> only_transparent env.
Proof.
  intros H n a b evs e Hev Hin. apply is_opaque_unmarked.
  exact (H n a b evs e Hev Hin).
Qed.

(** C5. Provided authentication is in order and the window
    [now, now + lead] is one a [datetime] can hold, for every event list
    the calendar returns for the window [is_busy_soon] reports busy exactly
    when some event of the list counts as busy, that is, has the
    transparency marker "opaque" or none at all, whatever the other
    attributes of the events, attendance included.  The title reported is
    that of the event that counts as busy, the first of them in the list
    when there are several ("Busy" for an event without a summary).  While
    the calendar returns no event that counts as busy, neither
    [is_busy_soon] nor [is_currently_busy] reports busy. *)
Theorem busy_is_decided_by_the_first_opaque_event :
  forall (env : oracle) (lead : Z) (w w1 : world) (evs : list event),
    ensure_authenticated env w = (Ok true, w1) ->
    in_datetime_range (clock w1) ->
    in_datetime_range (clock w1 + inject_Z lead * 60) ->
    events_list env (calls w1) (clock w1) (clock w1 + inject_Z lead * 60) = Ok evs ->
    (exists r : bool * option string,
       is_busy_soon env lead w = (Ok r, with_calls S w1)
       /\ (fst r = true <-> exists e, In e evs /\ marked_opaque e)
       /\ ((forall e, In e evs -> ~ marked_opaque e) -> r = (false, None))
       /\ (forall before e after,
             evs = before ++ e :: after ->
             (forall x, In x before -> ~ marked_opaque x) ->
             marked_opaque e ->
             r = (true, Some (title_of e))))
    /\ (no_event_marked_opaque env ->
        forall u,
          (exists s u', is_busy_soon env lead u = (Ok (false, s), u'))
          /\ (exists s u', is_currently_busy env u = (Ok (false, s), u'))).
Proof.
  intros env lead w w1 evs Ha _ _ Hev. split.
  - exists (first_opaque evs).
    split; [now apply is_busy_soon_spec|].
    split.
    { rewrite first_opaque_busy_iff. split; intros (e & Hin & He); exists e;
        (split; [exact Hin | now apply is_opaque_marked]). }
    split.
    { intros Hnone. unfold first_opaque.
      replace (find is_opaque evs) with (@None event); [reflexivity|].
      symmetry. apply find_none_iff. intros e Hin.
      apply is_opaque_unmarked. now apply Hnone. }
    intros before e after -> Hb He.
    rewrite first_opaque_head.
    + unfold summary_or, title_of. reflexivity.
    + intros x Hx. apply is_opaque_unmarked. now apply Hb.
    + now apply is_opaque_marked.
  - intros Hall u. apply transparent_events_never_busy.
    now apply no_event_marked_opaque_only_transparent.
Qed.

Lemma busy_is_decided_by_the_first_opaque_event_witness :
  fst (is_busy_soon crowded 2 linked) = Ok (true, Some "Standup"%string)
  /\ fst (is_busy_soon leisurely 2 linked) = Ok (false, None)
  /\ (exists s u', is_currently_busy leisurely linked = (Ok (false, s), u')).
Proof.
  destruct (@busy_is_decided_by_the_first_opaque_event crowded 2 linked
              (snd (ensure_authenticated crowded linked))
              [lunch; standup; review])
    as [(r & E & _ & _ & Hfirst) _].
  { vm_compute. reflexivity. }
  { split; vm_compute; [discriminate | reflexivity]. }
  { split; vm_compute; [discriminate | reflexivity]. }
  { reflexivity. }
  destruct (@busy_is_decided_by_the_first_opaque_event leisurely 2 linked
              (snd (ensure_authenticated leisurely linked)) [lunch])
    as [(r' & E' & _ & Hnone & _) Hnever].
  { vm_compute. reflexivity. }
  { split; vm_compute; [discriminate | reflexivity]. }
  { split; vm_compute; [discriminate | reflexivity]. }
  { reflexivity. }
  split.
  { rewrite E. cbn [fst]. f_equal.
    apply (Hfirst [lunch] standup [review]).
    - reflexivity.
    - intros x [<-|[]] [H|H]; discriminate H.
    - now left. }
  split.
  { rewrite E'. cbn [fst]. f_equal. apply Hnone.
    intros e [<-|[]] [H|H]; discriminate H. }
  refine (proj2 (Hnever _ linked)).
  intros n a b evs e Hev Hin. inversion Hev; subst evs.
  destruct Hin as [<-|[]]. intros [H|H]; discriminate H.
Defined.

(** In [calendar_monitor.py] the rule is a different one: a declined opaque
    meeting is not counted there, while [is_busy_soon] counts it. *)
Lemma monitor_skips_declined_events :
  monitor_is_busy [review] = false /\ first_opaque [review] = (true, Some "Review"%string).
Proof. split; reflexivity. Qed.

(** C7 (as amended). When [ensure_authenticated] fails, [is_busy_soon] and
    [is_currently_busy] both return the busy flag [False] together with the
    string "Authentication failed" in the summary slot, and do nothing
    else. *)
Theorem failed_authentication_is_reported_as_text :
  forall (env : oracle) (lead : Z) (w w1 : world),
    ensure_authenticated env w = (Ok false, w1) ->
    is_busy_soon env lead w
    = (Ok (false, Some "Authentication failed"%string), w1)
    /\ is_currently_busy env w
       = (Ok (false, Some "Authentication failed"%string), w1).
Proof.
  intros env lead w w1 H. unfold is_busy_soon, is_currently_busy.
  now rewrite !(bind_Ok _ H).
Qed.

Lemma failed_authentication_is_reported_as_text_witness :
  let w1 := snd (ensure_authenticated dead boot) in
  is_busy_soon dead 2 boot = (Ok (false, Some "Authentication failed"%string), w1)
  /\ is_currently_busy dead boot
     = (Ok (false, Some "Authentication failed"%string), w1).
Proof.
  intros w1.
  apply (@failed_authentication_is_reported_as_text dead 2 boot w1).
  vm_compute. reflexivity.
Defined.

(** C7, refuted as stated: the summary returned after a failed
    authentication is not [None]. *)
Lemma auth_failure_yields_a_message : ~ auth_failure_yields_none.
Proof.
  intros H.
  destruct (H dead 2%Z boot (snd (ensure_authenticated dead boot))) as [E _].
  - vm_compute. reflexivity.
  - vm_compute in E. discriminate E.
Qed.

(* ================================================================== *)
(** * Further properties of the code *)


(** ** What the device object keeps *)

Lemma KeepsT_same (P : TuyaController -> Prop) A (m : M A) :
  (forall w, tuya (snd (m w)) = tuya w) -> KeepsT P m.
Proof. intros H w Hp. now rewrite H. Qed.

Lemma KeepsT_ret P A (a : A) : KeepsT P (ret a).
Proof. now apply KeepsT_same. Qed.

Lemma KeepsT_raise P A (e : exn) : KeepsT P (@raise A e).
Proof. now apply KeepsT_same. Qed.

Lemma KeepsT_gets P A (f : world -> A) : KeepsT P (gets f).
Proof. now apply KeepsT_same. Qed.

Lemma KeepsT_time_time P : KeepsT P time_time.
Proof. now apply KeepsT_same. Qed.

Lemma KeepsT_ask P A (answer : nat -> result A) : KeepsT P (ask answer).
Proof. now apply KeepsT_same. Qed.

Lemma KeepsT_sleep P (d : Q) : KeepsT P (sleep d).
Proof. now apply KeepsT_same. Qed.

Lemma KeepsT_emit P (a : action) : KeepsT P (emit a).
Proof. now apply KeepsT_same. Qed.

Lemma KeepsT_random_uniform P env (a b : Q) : KeepsT P (random_uniform env a b).
Proof. now apply KeepsT_same. Qed.

Lemma KeepsT_modify_tuya (P : TuyaController -> Prop) f :
  (forall t, P t -> P (f t)) -> KeepsT P (modify (with_tuya f)).
Proof. intros H w Hp. cbn. now apply H. Qed.

Lemma KeepsT_bind P A B (m : M A) (k : A -> M B) :
  KeepsT P m -> (forall a, KeepsT P (k a)) -> KeepsT P (bind m k).
Proof.
  intros Hm Hk w Hp. unfold bind. specialize (Hm w Hp).
  destruct (m w) as [[a|e] w1]; cbn in *; [now apply Hk|exact Hm].
Qed.

Lemma KeepsT_try P A (m : M A) (handler : exn -> M A) :
  KeepsT P m -> (forall e, KeepsT P (handler e)) -> KeepsT P (try_except m handler).
Proof.
  intros Hm Hh w Hp. unfold try_except. specialize (Hm w Hp).
  destruct (m w) as [[a|e] w1]; cbn in *; [exact Hm|now apply Hh].
Qed.

Lemma KeepsT_for_from P R (body : nat -> M (option R)) (n : nat) :
  (forall i, KeepsT P (body i)) -> forall i, KeepsT P (for_from i n body).
Proof.
  intros Hb. induction n as [|n IH]; intros i; cbn [for_from].
  - apply KeepsT_ret.
  - apply KeepsT_bind; [apply Hb|]. intros [v|]; [apply KeepsT_ret|apply IH].
Qed.

Lemma KeepsT_retry P env A (func : M A) (max_retries : Z)
  (initial_delay max_delay : Q) :
  KeepsT P func ->
  KeepsT P (retry_with_exponential_backoff env func max_retries
              initial_delay max_delay).
Proof.
  intros H. unfold retry_with_exponential_backoff, for_range.
  apply KeepsT_bind.
  - apply KeepsT_for_from. intros i. unfold retry_attempt.
    apply KeepsT_try.
    + apply KeepsT_bind; [exact H|]. intros v. apply KeepsT_ret.
    + intros e. destruct (Z.of_nat i =? max_retries - 1)%Z.
      * apply KeepsT_raise.
      * destruct (power_overflows i); [apply KeepsT_raise|].
        apply KeepsT_bind; [apply KeepsT_random_uniform|]. intros j.
        apply KeepsT_bind; [apply KeepsT_sleep|]. intros _. apply KeepsT_ret.
  - intros [v|]; [apply KeepsT_ret|apply KeepsT_raise].
Qed.

Section DeviceHealth.

Variable env : oracle.

Lemma _connect_post (w w' : world) (r : bool) :
  _connect env w = (Ok r, w') ->
  r = true
  /\ connection_verified (tuya w') = true
  /\ last_successful_connection (tuya w') = Some (clock w')
  /\ cloud (tuya w') || device (tuya w') = true
  /\ exists v, last_state (tuya w') = Some v.
Proof.
  unfold _connect, bind, gets, modify, ask, time_time, raise, ret.
  destruct (use_cloud_api (tuya w)); cbn.
  - destruct (cloud_getstatus env (calls w)) as [st|e]; cbn;
      [|intros H; discriminate H].
    destruct (success st && nonempty (result_items st));
      [|intros H; discriminate H].
    destruct (find_switch (result_items st)) as [v|]; intros H; inversion H.
    cbn. repeat split. now exists v.
  - destruct (device_status env (calls w)) as [[[v|]|]|e]; cbn;
      intros H; inversion H. cbn. repeat split.
    + apply orb_true_r.
    + now exists v.
Qed.

(** [connect] returns the verified flag it leaves behind; on success the
    timestamp is the current clock, a handle exists and the state of the
    switch is known. *)
Lemma connect_post (w w' : world) (r : bool) :
  connect env w = (Ok r, w') ->
  connection_verified (tuya w') = r
  /\ (r = true ->
      last_successful_connection (tuya w') = Some (clock w')
      /\ cloud (tuya w') || device (tuya w') = true
      /\ exists v, last_state (tuya w') = Some v).
Proof.
  unfold connect, try_except.
  destruct (retry_with_exponential_backoff env (_connect env) 3 1 60 w)
    as [[v|e] w1] eqn:E; cbn.
  - intros H. inversion H; subst. apply retry_Ok_inv in E.
    destruct E as [w0 E]. apply _connect_post in E.
    destruct E as (-> & Hv & Ht & Hh & Hl). auto.
  - intros H. inversion H; subst. cbn. split; [reflexivity|discriminate].
Qed.

Lemma fresh_is_verified (t : TuyaController) (now : Q) :
  connection_stale t now = false -> connection_verified t = true.
Proof.
  unfold connection_stale. destruct (connection_verified t); [reflexivity|].
  cbn. discriminate.
Qed.

(** The same for [ensure_connection]. *)
Lemma ensure_connection_post (w w' : world) (r : bool) :
  ensure_connection env w = (Ok r, w') ->
  connection_verified (tuya w') = r
  /\ (r = true ->
      last_successful_connection (tuya w') = Some (clock w')
      /\ cloud (tuya w') || device (tuya w') = true).
Proof.
  assert (C : forall u u' b, connect env u = (Ok b, u') ->
              connection_verified (tuya u') = b
              /\ (b = true ->
                  last_successful_connection (tuya u') = Some (clock u')
                  /\ cloud (tuya u') || device (tuya u') = true)).
  { intros u u' b H. destruct (connect_post _ H) as [Hv Hs]. split; [exact Hv|].
    intros Hb. destruct (Hs Hb) as (Ht & Hh & _). auto. }
  unfold ensure_connection. rewrite gets_bind, time_time_bind.
  destruct (connection_stale (tuya w) (clock w)) eqn:Hf; [apply C|].
  pose proof (fresh_is_verified _ _ Hf) as Hv.
  unfold try_except.
  destruct (use_cloud_api (tuya w) && cloud (tuya w)) eqn:Hc.
  - unfold ask. unfold bind at 1.
    destruct (cloud_getstatus env (calls w)) as [st|e]; [|apply C].
    destruct (success st) eqn:Hs.
    + cbn. intros H. inversion H; subst. cbn. split; [exact Hv|]. intros _.
      split; [reflexivity|]. apply andb_prop in Hc. destruct Hc as [_ ->].
      reflexivity.
    + destruct (connect env (with_calls S w)) as [[b|e] u] eqn:E.
      * apply C in E. intros H. inversion H; subst. exact E.
      * destruct (Total_connect env (with_calls S w)) as [b Hb].
        rewrite E in Hb. discriminate Hb.
  - destruct (device (tuya w)) eqn:Hd.
    + unfold ask. unfold bind at 1.
      destruct (device_status env (calls w)) as [[dps|]|e]; [| |apply C].
      * cbn. intros H. inversion H; subst. cbn. split; [exact Hv|]. intros _.
        split; [reflexivity|]. rewrite Hd. apply orb_true_r.
      * destruct (connect env (with_calls S w)) as [[b|e] u] eqn:E.
        -- apply C in E. intros H. inversion H; subst. exact E.
        -- destruct (Total_connect env (with_calls S w)) as [b Hb].
           rewrite E in Hb. discriminate Hb.
    + destruct (connect env w) as [[b|e] u] eqn:E.
      * apply C in E. intros H. inversion H; subst. exact E.
      * destruct (Total_connect env w) as [b Hb].
        rewrite E in Hb. discriminate Hb.
Qed.

Lemma _set_state_post (state : bool) (w w' : world) (r : bool) :
  _set_state env state w = (Ok r, w') ->
  r = true
  /\ last_state (tuya w') = Some state
  /\ connection_verified (tuya w') = connection_verified (tuya w).
Proof.
  unfold _set_state, bind, gets, ask, modify, raise, ret.
  destruct (use_cloud_api (tuya w) && cloud (tuya w)); cbn.
  - destruct (cloud_sendcommand env (calls w) state) as [[|]|e]; cbn;
      intros H; inversion H. cbn. auto.
  - destruct (device (tuya w)); [|intros H; discriminate H]. cbn.
    destruct (device_set_status env (calls w) state) as [[|]|e]; cbn;
      intros H; inversion H. cbn. auto.
Qed.

Lemma KeepsT__set_state (state : bool) :
  KeepsT (fun t => connection_verified t = true) (_set_state env state).
Proof.
  intros w Hv. destruct (_set_state env state w) as [[r|e] w'] eqn:E; cbn.
  - apply _set_state_post in E. destruct E as (_ & _ & ->). exact Hv.
  - revert E. unfold _set_state, bind, gets, ask, modify, raise, ret.
    destruct (use_cloud_api (tuya w) && cloud (tuya w)); cbn.
    + destruct (cloud_sendcommand env (calls w) state) as [[|]|x]; cbn;
        intros H; inversion H; subst; exact Hv.
    + destruct (device (tuya w)); [|intros H; inversion H; subst; exact Hv].
      cbn.
      destruct (device_set_status env (calls w) state) as [[|]|x]; cbn;
        intros H; inversion H; subst; exact Hv.
Qed.

Lemma set_state_body_post (state : bool) (w w' : world) (r : bool) :
  set_state_body env state w = (Ok r, w') ->
  connection_verified (tuya w') = r
  /\ (r = true -> last_state (tuya w') = Some state).
Proof.
  unfold set_state_body.
  destruct (Total_run w (Total_ensure_connection env)) as (c & w1 & E1).
  rewrite (bind_Ok _ E1). apply ensure_connection_post in E1.
  destruct E1 as [Hv _]. destruct c; cbn [negb].
  - unfold try_except.
    destruct (retry_with_exponential_backoff env (_set_state env state)
                3 1 60 w1) as [[v|e] w2] eqn:E.
    + intros H. inversion H; subst.
      pose proof (KeepsT_retry env 3 1 60 (KeepsT__set_state state) w1 Hv) as K.
      rewrite E in K. cbn in K.
      apply retry_Ok_inv in E. destruct E as [w0 E].
      apply _set_state_post in E. destruct E as (-> & Hl & _). auto.
    + cbn. intros H. inversion H; subst. cbn. split; [reflexivity|discriminate].
  - cbn. intros H. inversion H; subst. split; [exact Hv|discriminate].
Qed.

End DeviceHealth.

(** X1. The value [connect] returns is the verified flag it leaves behind,
    whatever the device answered.  After a successful [connect] the
    timestamp of the last contact is the current clock, a handle exists and
    the state of the switch is known. *)
Theorem connect_returns_the_verified_flag :
  forall (env : oracle) (w w' : world) (r : bool),
    connect env w = (Ok r, w') ->
    connection_verified (tuya w') = r
    /\ (r = true ->
        last_successful_connection (tuya w') = Some (clock w')
        /\ cloud (tuya w') || device (tuya w') = true
        /\ exists v, last_state (tuya w') = Some v).
Proof. intros env w w' r H. exact (@connect_post env w w' r H). Qed.

Lemma connect_returns_the_verified_flag_witness :
  let w' := snd (connect dead linked) in
  connection_verified (tuya w') = false
  /\ (false = true ->
      last_successful_connection (tuya w') = Some (clock w')
      /\ cloud (tuya w') || device (tuya w') = true
      /\ exists v, last_state (tuya w') = Some v).
Proof.
  intros w'. apply (@connect_returns_the_verified_flag dead linked w' false).
  vm_compute. reflexivity.
Defined.

(** X2. When [ensure_connection] returns [True] the connection is verified,
    the timestamp of the last contact is the current clock and a handle
    exists, so that (at a clock other than zero) a call that follows at once
    finds it fresh; when it returns [False] the connection is marked
    unverified. *)
Theorem ensure_connection_leaves_it_fresh :
  forall (env : oracle) (w w' : world) (r : bool),
    ensure_connection env w = (Ok r, w') ->
    ~ clock w' == 0 ->
    connection_verified (tuya w') = r
    /\ (r = true ->
        last_successful_connection (tuya w') = Some (clock w')
        /\ cloud (tuya w') || device (tuya w') = true
        /\ connection_stale (tuya w') (clock w') = false).
Proof.
  intros env w w' r H Hz.
  destruct (@ensure_connection_post env w w' r H) as [Hv Hs].
  split; [exact Hv|]. intros Hr. destruct (Hs Hr) as [Ht Hh].
  rewrite Hr in Hv.
  split; [exact Ht|]. split; [exact Hh|].
  destruct (connection_stale (tuya w') (clock w')) eqn:E; [|reflexivity].
  apply (connection_stale_iff _ (clock w') Hv Ht Hz) in E.
  exfalso. revert E. now apply not_past.
Qed.

Lemma ensure_connection_leaves_it_fresh_witness :
  let w' := snd (ensure_connection calm boot) in
  connection_verified (tuya w') = true
  /\ (true = true ->
      last_successful_connection (tuya w') = Some (clock w')
      /\ cloud (tuya w') || device (tuya w') = true
      /\ connection_stale (tuya w') (clock w') = false).
Proof.
  intros w'. apply (@ensure_connection_leaves_it_fresh calm boot w' true).
  - vm_compute. reflexivity.
  - vm_compute. discriminate.
Defined.

(** X3. The value [set_state] returns is the verified flag it leaves
    behind: after a failed write the connection is marked unverified, so
    that the next call reconnects first; after a successful write the
    requested position is the last known state. *)
Theorem set_state_returns_the_verified_flag :
  forall (env : oracle) (state : bool) (w w' : world) (r : bool),
    set_state env state w = (Ok r, w') ->
    connection_verified (tuya w') = r
    /\ (r = true -> last_state (tuya w') = Some state)
    /\ (r = false -> ensure_connection env w' = connect env w').
Proof.
  intros env state w w' r. unfold set_state.
  destruct (Total_run w (Total_set_state_body env state)) as (ok & w1 & E).
  rewrite (bind_Ok _ E). cbn.
  destruct (@set_state_body_post env state w w1 ok E) as [Hv Hl].
  intros H. injection H as Hr Hw. rewrite <- Hw, <- Hr. cbn.
  split; [exact Hv|]. split; [exact Hl|]. intros Hf. rewrite Hf in Hv.
  apply (@ensure_connection_when_stale env
           (with_trace (fun t => t ++ [SetState state ok]) w1)).
  cbn. unfold connection_stale. now rewrite Hv.
Qed.

Lemma set_state_returns_the_verified_flag_witness :
  let w' := snd (set_state dead true linked) in
  connection_verified (tuya w') = false
  /\ (false = true -> last_state (tuya w') = Some true)
  /\ (false = false -> ensure_connection dead w' = connect dead w').
Proof.
  intros w'. apply (@set_state_returns_the_verified_flag dead true linked w' false).
  vm_compute. reflexivity.
Defined.

Lemma set_state_post (env : oracle) (state : bool) (w w' : world) (r : bool) :
  set_state env state w = (Ok r, w') ->
  connection_verified (tuya w') = r
  /\ (r = true -> last_state (tuya w') = Some state).
Proof.
  unfold set_state.
  destruct (Total_run w (Total_set_state_body env state)) as (ok & w1 & E).
  rewrite (bind_Ok _ E). cbn.
  destruct (@set_state_body_post env state w w1 ok E) as [Hv Hl].
  intros H. injection H as Hr Hw. rewrite <- Hw, <- Hr. cbn. auto.
Qed.



(** X5. When every write of a [flash] succeeds and the state of the switch
    was known before, the last known state after the flash is the one from
    before: the flash puts the switch back. *)
Theorem flash_puts_the_switch_back :
  forall (env : oracle) (times : Z) (duration : Q) (w w' : world)
         (s : bool) (V : list action),
    0 <= duration ->
    flash env times duration w = (Ok true, w') ->
    last_state (tuya w) = Some s ->
    emits V w w' ->
    all_writes_ok V ->
    last_state (tuya w') = Some s.
Proof.
  intros env times duration w w' s V _ Hf Ls T Hok.
  destruct (cloud (tuya w) || device (tuya w)) eqn:Hh.
  - revert Hf. unfold flash, gets. unfold bind at 1. rewrite Hh. cbn [negb].
    unfold try_except, for_range.
    destruct (flash_loop_spec env duration (Z.to_nat times) 0 w)
      as (r & w1 & E & S1 & H).
    rewrite (bind_Ok _ E).
    destruct H as [[-> T1]|[-> _]]; [|cbn; intros H; discriminate H].
    rewrite Ls.
    destruct (set_state_spec env s w1) as (ok & w2 & E2 & S2 & T2).
    rewrite (bind_Ok _ E2). cbn. intros H. injection H as Hw. subst w2.
    pose proof (emits_functional T (emits_trans T1 T2)) as HV.
    assert (Hk : ok = true).
    { apply (Hok s ok). rewrite HV. apply in_or_app. right. now left. }
    subst ok. destruct (set_state_post _ _ _ E2) as [_ Hl]. now apply Hl.
  - apply orb_false_elim in Hh. destruct Hh as [Hc Hd].
    rewrite (flash_gives_up env times duration w Hc Hd) in Hf. discriminate Hf.
Qed.

Lemma flash_puts_the_switch_back_witness :
  last_state (tuya (snd (flash calm 3 1 linked))) = Some false.
Proof.
  apply (@flash_puts_the_switch_back calm 3 1 linked
           (snd (flash calm 3 1 linked)) false
           (visible (trace (snd (flash calm 3 1 linked))))).
  - discriminate.
  - vm_compute. reflexivity.
  - reflexivity.
  - exists (trace (snd (flash calm 3 1 linked))). split; vm_compute; reflexivity.
  - intros on ok Hin. vm_compute in Hin.
    repeat (destruct Hin as [Hin|Hin]; [now inversion Hin|]). contradiction.
Defined.

(** ** The retry executor, whatever the operation does *)

Lemma backoff_delay_within (initial_delay max_delay : Q) (i : nat) (j : Q) :
  0 <= initial_delay -> 0 <= max_delay -> 0 <= j ->
  within max_delay (backoff_delay initial_delay max_delay i j).
Proof.
  intros Hi Hm Hj. unfold within, backoff_delay. split.
  - apply Q.min_glb; [|exact Hm].
    assert (H2 : 0 <= 2 ^ Z.of_nat i) by (apply Qpower_0_le; discriminate).
    assert (H3 : 0 <= initial_delay * 2 ^ Z.of_nat i)
      by (apply Qmult_le_0_compat; assumption).
    lra.
  - apply Q.le_min_r.
Qed.

Section RetryBudget.

Variable env : oracle.
Variable A : Type.
Variable script : nat -> result A.
Variable max_retries : Z.
Variables initial_delay max_delay : Q.

Hypothesis initial_delay_nonneg : 0 <= initial_delay.
Hypothesis max_delay_nonneg : 0 <= max_delay.
Hypothesis jitter_nonneg : forall x, 0 <= jitter env x.

Let body := retry_attempt env (scripted script) max_retries initial_delay max_delay.

Lemma loop_within_budget (n : nat) :
  forall (i : nat) (w : world),
    (Z.of_nat (i + n) = max_retries)%Z ->
    (1 <= n)%nat ->
    exists (r : result (option A)) (w' : world) (ds : list Q),
      for_from i n body w = (r, w')
      /\ r <> Ok None
      /\ trace w' = trace w ++ map Sleep ds
      /\ Forall (within max_delay) ds
      /\ calls w' = (calls w + S (List.length ds))%nat
      /\ (S (List.length ds) <= n)%nat.
Proof.
  induction n as [|n IH]; intros i w Hn Hpos; [lia|].
  destruct (script (calls w)) as [v|e] eqn:Hs.
  - exists (Ok (Some v)), (with_calls S w), [].
    split; [cbn [for_from]; unfold bind at 1; unfold body;
            now rewrite (@attempt_succeeds env A script max_retries
                           initial_delay max_delay i w v Hs)|].
    split; [discriminate|]. cbn. rewrite app_nil_r.
    repeat split; [constructor|lia|lia].
  - destruct (Z.of_nat i =? max_retries - 1)%Z eqn:Hi.
    + exists (Raise e), (with_calls S w), [].
      split; [cbn [for_from]; unfold bind at 1; unfold body;
              now rewrite (@attempt_fails_last env A script max_retries
                             initial_delay max_delay i w e Hs Hi)|].
      split; [discriminate|]. cbn. rewrite app_nil_r.
      repeat split; [constructor|lia|lia].
    + destruct (le_lt_dec 1024 i) as [Hover|Hlt].
      { exists (Raise (OtherError "OverflowError"
                         "int too large to convert to float")),
          (with_calls S w), [].
        split; [cbn [for_from]; unfold bind at 1; unfold body;
                now rewrite (@attempt_overflows env A script max_retries
                               initial_delay max_delay i w e Hs Hi Hover)|].
        split; [discriminate|]. cbn. rewrite app_nil_r.
        repeat split; [constructor|lia|lia]. }
      destruct (@attempt_fails_and_sleeps env A script max_retries
                  initial_delay max_delay i w e Hs Hi Hlt)
        as (w1 & E1 & C1 & D1 & T1).
      apply Z.eqb_neq in Hi.
      destruct (IH (S i) w1) as (r & w' & ds & E & Hr & T & F & C & L);
        [lia|lia|].
      exists r, w',
        (backoff_delay initial_delay max_delay i
           (0 + (1 - 0) * jitter env (draws w)) :: ds).
      split.
      { cbn [for_from]. unfold bind at 1. unfold body at 1. rewrite E1.
        exact E. }
      split; [exact Hr|]. split.
      { rewrite T, T1. cbn [map]. now rewrite <- app_assoc. }
      split.
      { constructor; [|exact F]. apply backoff_delay_within; auto.
        pose proof (jitter_nonneg (draws w)). lra. }
      cbn [List.length]. split; lia.
Qed.

End RetryBudget.

(** X6. Whatever the operation does, [retry_with_exponential_backoff] (with
    non-negative delays) invokes it at most [max_retries] times and records
    nothing but sleeps, each of them between 0 and [max_delay] and each
    followed by a further invocation: one sleep fewer than invocations.
    With [max_retries <= 0] the operation is not invoked at all and the
    generic exception [All n retry attempts failed] is raised. *)
Theorem retry_stays_within_its_budget :
  forall (env : oracle) (A : Type) (script : nat -> result A)
         (max_retries : Z) (initial_delay max_delay : Q) (w : world),
    0 <= initial_delay ->
    0 <= max_delay ->
    (forall x, 0 <= jitter env x) ->
    exists (r : result A) (w' : world) (ds : list Q),
      retry_with_exponential_backoff env (scripted script)
        max_retries initial_delay max_delay w = (r, w')
      /\ trace w' = trace w ++ map Sleep ds
      /\ Forall (within max_delay) ds
      /\ (((max_retries <= 0)%Z
           /\ calls w' = calls w /\ ds = []
           /\ r = Raise (Exception ("All " ++ string_of_Z max_retries
                                      ++ " retry attempts failed")))
          \/ ((1 <= max_retries)%Z
              /\ calls w' = (calls w + S (List.length ds))%nat
              /\ (Z.of_nat (S (List.length ds)) <= max_retries)%Z)).
Proof.
  intros env A script max_retries initial_delay max_delay w Hi Hm Hj.
  destruct (Z_le_gt_dec max_retries 0) as [Hz|Hz].
  - exists (Raise (Exception ("All " ++ string_of_Z max_retries
                               ++ " retry attempts failed"))), w, [].
    split; [now apply retry_without_attempts|].
    cbn. rewrite app_nil_r. split; [reflexivity|]. split; [constructor|].
    left. auto.
  - destruct (@loop_within_budget env A script max_retries initial_delay
                max_delay Hi Hm Hj (Z.to_nat max_retries) 0%nat w)
      as (r & w' & ds & E & Hr & T & F & C & L); [lia|lia|].
    unfold retry_with_exponential_backoff, for_range. unfold bind at 1.
    rewrite E. destruct r as [[v|]|e].
    + exists (Ok v), w', ds. split; [reflexivity|].
      split; [exact T|]. split; [exact F|]. right. split; [lia|]. split; [exact C|lia].
    + now contradiction Hr.
    + exists (Raise e), w', ds. split; [reflexivity|].
      split; [exact T|]. split; [exact F|]. right. split; [lia|]. split; [exact C|lia].
Qed.

Lemma retry_stays_within_its_budget_witness :
  exists (r : result nat) (w' : world) (ds : list Q),
    retry_with_exponential_backoff calm (scripted flaky) 2 1 60 boot = (r, w')
    /\ trace w' = trace boot ++ map Sleep ds
    /\ Forall (within 60) ds
    /\ (((2 <= 0)%Z
         /\ calls w' = calls boot /\ ds = []
         /\ r = Raise (Exception ("All " ++ string_of_Z 2
                                    ++ " retry attempts failed")))
        \/ ((1 <= 2)%Z
            /\ calls w' = (calls boot + S (List.length ds))%nat
            /\ (Z.of_nat (S (List.length ds)) <= 2)%Z)).
Proof.
  apply (@retry_stays_within_its_budget calm nat flaky 2 1 60 boot).
  - discriminate.
  - discriminate.
  - intros x. discriminate.
Defined.

(** ** The calendar monitor under failure *)

Section RetryFailure.

Variable env : oracle.
Variable A : Type.
Variable func : M A.
Variable max_retries : Z.
Variables initial_delay max_delay : Q.
Variable e : exn.

Hypothesis func_raises : forall u, exists u', func u = (Raise e, u').



End RetryFailure.



Lemma Qle_bool_shift (a b o : Q) : Qle_bool (a - o) (b - o) = Qle_bool a b.
Proof.
  destruct (Qle_bool a b) eqn:E1; destruct (Qle_bool (a - o) (b - o)) eqn:E2;
    try reflexivity; exfalso.
  - apply Qle_bool_iff in E1. assert (H : a - o <= b - o) by lra.
    apply Qle_bool_iff in H. congruence.
  - apply Qle_bool_iff in E2. assert (H : a <= b) by lra.
    apply Qle_bool_iff in H. congruence.
Qed.

(** X8. For an event whose start and end carry the same UTC offset (or
    none, as for an all-day event), the test of [is_currently_busy] compares
    the wall-clock readings of the event with the UTC clock and reports the
    event exactly when [start <= now <= end] on those readings and the event
    is opaque: relabelling [now] with the event's zone takes the offset out
    of the comparison. *)
Theorem current_event_test_ignores_the_offset :
  forall (now : Q) (e : event) (sd ed : datetime) (w : world),
    parse_when (start_ e) = Ok sd ->
    parse_when (end_ e) = Ok ed ->
    tz sd = tz ed ->
    scan_current now e w
    = (Ok (if Qle_bool (wall sd) now && Qle_bool now (wall ed) && is_opaque e
           then Some (true, Some (summary_or "Busy" e))
           else None), w).
Proof.
  intros now e sd ed w Hs He Htz.
  unfold scan_current, bind, lift, ret. rewrite Hs, He.
  unfold datetime_le. cbn [tz wall]. rewrite <- Htz.
  destruct (tz sd) as [o|].
  - rewrite !Qle_bool_shift.
    destruct (Qle_bool (wall sd) now); cbn; [|reflexivity].
    destruct (Qle_bool now (wall ed)); cbn; [|reflexivity].
    now destruct (is_opaque e).
  - destruct (Qle_bool (wall sd) now); cbn; [|reflexivity].
    destruct (Qle_bool now (wall ed)); cbn; [|reflexivity].
    now destruct (is_opaque e).
Qed.

Lemma current_event_test_ignores_the_offset_witness :
  scan_current 37800 abroad boot
  = (Ok (if Qle_bool 36000 37800 && Qle_bool 37800 39600 && is_opaque abroad
         then Some (true, Some (summary_or "Busy" abroad))
         else None), boot).
Proof.
  apply (@current_event_test_ignores_the_offset 37800 abroad
           {| wall := 36000; tz := Some 7200 |}
           {| wall := 39600; tz := Some 7200 |} boot); reflexivity.
Defined.

(** ** Waiting: for the network and for the minute *)







Lemma minute_floor (now : Q) :
  inject_Z (Qfloor (now / 60)) * 60 <= now
  /\ now < inject_Z (Qfloor (now / 60)) * 60 + 60.
Proof.
  pose proof (Qfloor_le (now / 60)) as H1.
  pose proof (Qlt_floor (now / 60)) as H2.
  rewrite inject_Z_plus in H2. change (inject_Z 1) with 1 in H2.
  assert (E : now == now / 60 * 60) by field.
  set (f := inject_Z (Qfloor (now / 60))) in *.
  set (q := now / 60) in *.
  split; lra.
Qed.

Lemma seconds_until_next_minute_spec (now : Q) :
  0 < seconds_until_next_minute now
  /\ seconds_until_next_minute now <= 60
  /\ now + seconds_until_next_minute now
     == inject_Z (Qfloor (now / 60) + 1) * 60.
Proof.
  unfold seconds_until_next_minute. destruct (minute_floor now) as [H1 H2].
  rewrite inject_Z_plus. change (inject_Z 1) with 1.
  set (f := inject_Z (Qfloor (now / 60))) in *.
  repeat split; lra.
Qed.

(** X10. A tick that completes ends with a sleep of more than 0 and at most
    60 seconds, after which the clock reads a whole number of minutes: the
    next check starts on the minute. *)
Theorem completed_tick_ends_on_the_minute :
  forall (env : oracle) (w w' : world) (d : bool) (name : option string),
    tick env w = (Ok (TickDone d name), w') ->
    exists (k : Z) (pause : Q),
      clock w' == inject_Z k * 60
      /\ 0 < pause /\ pause <= 60
      /\ last (trace w') (Sleep 0) = Sleep pause.
Proof.
  intros env w w' d name. unfold tick, try_except.
  destruct (network_gate_spec env w)
    as (offline & w1 & E1 & [(-> & _)|(-> & _)]);
    rewrite (bind_Ok _ E1); [|cbn [ret]; intros H; discriminate H].
  destruct (calm_run w1 (Quiet_log_daily_events env)
              (Total_log_daily_events env)) as ([] & w2 & E2 & _).
  rewrite (bind_Ok _ E2), gets_bind.
  destruct (calm_run w2 (Quiet_is_busy_soon env (lead_time (svc w2)))
              (Total_is_busy_soon env (lead_time (svc w2))))
    as (soon & w3 & E3 & _).
  rewrite (bind_Ok _ E3).
  destruct (calm_run w3 (Quiet_is_currently_busy env)
              (Total_is_currently_busy env)) as (current & w4 & E4 & _).
  rewrite (bind_Ok _ E4).
  destruct (update_light_spec env (fst soon || fst current) w4)
    as (ok & w5 & E5 & _).
  rewrite (bind_Ok _ E5).
  destruct (stop_error_flash_spec w5) as (w6 & E6 & _).
  rewrite (bind_Ok _ E6), time_time_bind.
  cbn. intros H. injection H as _ _ Hw. subst w'. cbn.
  destruct (seconds_until_next_minute_spec (clock w6)) as (Hp & Hl & Hb).
  exists (Qfloor (clock w6 / 60) + 1)%Z, (seconds_until_next_minute (clock w6)).
  split; [exact Hb|]. split; [exact Hp|]. split; [exact Hl|].
  apply last_last.
Qed.

Lemma completed_tick_ends_on_the_minute_witness :
  exists (k : Z) (pause : Q),
    clock (snd (tick meeting linked)) == inject_Z k * 60
    /\ 0 < pause /\ pause <= 60
    /\ last (trace (snd (tick meeting linked))) (Sleep 0) = Sleep pause.
Proof.
  apply (@completed_tick_ends_on_the_minute meeting linked
           (snd (tick meeting linked)) true (Some "Standup"%string)).
  vm_compute. reflexivity.
Defined.

(** ** The loop during an outage, and at shutdown *)


Lemma stop_error_flash_keeps (w : world) :
  tuya (snd (stop_error_flash w)) = tuya w.
Proof.
  unfold stop_error_flash, bind, gets.
  destruct (error_flash_alive (svc w)); cbn; auto.
Qed.

Section Outage.

Variable env : oracle.

Hypothesis network_down : forall n, network env n = false.



End Outage.



Lemma stop_heartbeat_monitor_spec (w : world) :
  exists w',
    stop_heartbeat_monitor w = (Ok tt, w')
    /\ svc w' = set_heartbeat_alive false (svc w)
    /\ tuya w' = tuya w
    /\ emits (if heartbeat_alive (svc w) then [StopHeartbeat] else []) w w'.
Proof.
  unfold stop_heartbeat_monitor, bind, gets.
  destruct (heartbeat_alive (svc w)) eqn:Ha.
  - eexists. split; [reflexivity|]. split; [reflexivity|].
    split; [reflexivity|]. now exists [StopHeartbeat].
  - exists w. split; [reflexivity|]. split.
    + destruct (svc w). cbn in *. now subst.
    + split; [reflexivity|apply emits_nil].
Qed.

(** X12. [stop] returns.  It clears the running flag, asks the error
    flash and then the heartbeat to stop if they run, and after that, only
    when the connection is marked verified, asks once for the switch to be
    turned off.  The tracked busy state is left as it was, and the
    monitoring loop, entered afterwards, does not make another pass.
    Whether the two threads have ended by the time of the write is not
    stated: each is waited for during two seconds at most. *)
Theorem stop_turns_the_light_off_last :
  forall (env : oracle) (ticks : nat) (w : world),
    exists (w' : world) (V : list action) (ok : bool),
      stop env w = (Ok tt, w')
      /\ emits V w w'
      /\ V = (if error_flash_alive (svc w) then [StopErrorFlash] else [])
             ++ (if heartbeat_alive (svc w) then [StopHeartbeat] else [])
             ++ (if connection_verified (tuya w) then [SetState false ok]
                 else [])
      /\ running (svc w') = false
      /\ is_busy (svc w') = is_busy (svc w)
      /\ main_loop env ticks w' = (Ok tt, w').
Proof.
  intros env ticks w. unfold stop. unfold modify at 1. unfold bind at 1.
  set (w1 := with_svc (set_running false) w).
  destruct (stop_error_flash_spec w1) as (w2 & E2 & S2 & T2).
  pose proof (stop_error_flash_keeps w1) as K2. rewrite E2 in K2. cbn in K2.
  rewrite (bind_Ok _ E2).
  destruct (stop_heartbeat_monitor_spec w2) as (w3 & E3 & S3 & K3 & T3).
  rewrite (bind_Ok _ E3), gets_bind.
  assert (Ht : tuya w3 = tuya w) by (rewrite K3, K2; reflexivity).
  assert (Hs : svc w3
               = set_heartbeat_alive false
                   (set_error_flash_alive false (set_running false (svc w))))
    by (rewrite S3, S2; reflexivity).
  assert (T1 : emits [] w w1) by (exists []; now rewrite app_nil_r).
  change (error_flash_alive (svc w1)) with (error_flash_alive (svc w)) in T2.
  replace (heartbeat_alive (svc w2)) with (heartbeat_alive (svc w)) in T3
    by (rewrite S2; reflexivity).
  assert (Hloop : forall u, svc u = svc w3 -> main_loop env ticks u = (Ok tt, u)).
  { intros u Hu. destruct ticks as [|n]; [reflexivity|].
    cbn [main_loop]. rewrite gets_bind, Hu, Hs. reflexivity. }
  rewrite Ht. destruct (connection_verified (tuya w)) eqn:Hv.
  - destruct (set_state_spec env false w3) as (ok & w4 & E4 & S4 & T4).
    rewrite (bind_Ok _ E4). cbn [ret].
    exists w4. eexists. exists ok. split; [reflexivity|].
    split.
    { pose proof (emits_trans (emits_trans (emits_trans T1 T2) T3) T4) as H.
      cbn [app] in H. rewrite <- app_assoc in H. exact H. }
    split; [reflexivity|].
    rewrite S4, Hs. repeat split. now apply Hloop.
  - cbn [ret]. exists w3. eexists. exists true. split; [reflexivity|].
    split.
    { pose proof (emits_trans (emits_trans T1 T2) T3) as H.
      cbn [app] in H.
      rewrite <- (app_nil_r (if heartbeat_alive (svc w) then [StopHeartbeat]
                             else [])) in H.
      exact H. }
    split; [reflexivity|].
    rewrite Hs. repeat split. now apply Hloop.
Qed.

(** ** The tracked state and the switch *)

Lemma last_cons_default (X : Type) (l : list X) :
  forall a d : X, last (a :: l) d = last l a.
Proof.
  induction l as [|b l IH]; intros a d; [reflexivity|].
  change (last (a :: b :: l) d) with (last (b :: l) d).
  now rewrite (IH b d), (IH b a).
Qed.

Lemma last_app_default (X : Type) (l1 l2 : list X) :
  forall d : X, last (l1 ++ l2) d = last l2 (last l1 d).
Proof.
  induction l1 as [|a l1 IH]; intros d; [reflexivity|].
  cbn [app]. now rewrite last_cons_default, IH, (last_cons_default l1 a d).
Qed.

Lemma last_write_app (V1 V2 : list action) (b : bool) :
  last_write (V1 ++ V2) b = last_write V2 (last_write V1 b).
Proof. unfold last_write. now rewrite device_writes_app, last_app_default. Qed.

Lemma Mirrors_bind A B (m : M A) (k : A -> M B) :
  Mirrors m -> (forall a, Mirrors (k a)) -> Mirrors (bind m k).
Proof.
  intros Hm Hk w. destruct (Hm w) as (a & w1 & V1 & E1 & T1 & M1).
  destruct (Hk a w1) as (b & w2 & V2 & E2 & T2 & M2).
  exists b, w2, (V1 ++ V2). rewrite (bind_Ok _ E1).
  split; [exact E2|]. split; [exact (emits_trans T1 T2)|].
  now rewrite last_write_app, <- M1.
Qed.

Lemma Mirrors_calm A (m : M A) : Quiet m -> Total m -> Mirrors m.
Proof.
  intros Hq Ht w. destruct (calm_run w Hq Ht) as (a & w' & E & Hs & T).
  exists a, w', []. split; [exact E|]. split; [exact T|]. now rewrite Hs.
Qed.

Lemma Mirrors_emit_Log (line : string) : Mirrors (emit (Log line)).
Proof.
  intros w. eexists. eexists. exists [Log line]. split; [reflexivity|].
  split; [now exists [Log line]|reflexivity].
Qed.

Section Mirror.

Variable env : oracle.

Lemma Mirrors_start_error_flash : Mirrors start_error_flash.
Proof.
  intros w. destruct (start_error_flash_spec w) as (w' & E & S1 & T).
  exists tt, w'. eexists. split; [exact E|]. split; [exact T|].
  rewrite S1. now destruct (error_flash_alive (svc w)).
Qed.

Lemma Mirrors_start_heartbeat_monitor : Mirrors start_heartbeat_monitor.
Proof.
  intros w. destruct (start_heartbeat_monitor_spec w) as (w' & E & S1 & T).
  exists tt, w'. eexists. split; [exact E|]. split; [exact T|].
  rewrite S1. now destruct (heartbeat_alive (svc w)).
Qed.

Lemma Mirrors_tick : Mirrors (tick env).
Proof.
  intros w. destruct (tick_spec env w) as (r & w' & E & H).
  exists r, w'. destruct r as [|d name|e]; [| |contradiction].
  - destruct H as [S1 T]. eexists. split; [exact E|]. split; [exact T|].
    rewrite S1. now destruct (error_flash_alive (svc w)).
  - destruct H as (ok & S1 & T). eexists. split; [exact E|]. split; [exact T|].
    rewrite S1. cbn. unfold last_write. rewrite device_writes_app.
    destruct (Bool.eqb d (is_busy (svc w))) eqn:Hd.
    + apply eqb_prop in Hd. now destruct (error_flash_alive (svc w)).
    + now destruct (error_flash_alive (svc w)).
Qed.

Lemma Mirrors_main_loop (ticks : nat) : Mirrors (main_loop env ticks).
Proof.
  induction ticks as [|n IH]; cbn [main_loop].
  - apply Mirrors_calm; [apply Quiet_ret|apply Total_ret].
  - intros w. rewrite gets_bind. destruct (running (svc w)).
    + apply Mirrors_bind; [apply Mirrors_tick|intros _; exact IH].
    + apply Mirrors_calm; [apply Quiet_ret|apply Total_ret].
Qed.

(** The decision at startup: the tracked state and the write agree. *)
Lemma decide_and_set_at_startup_spec (w : world) :
  exists (d ok : bool) (w' : world),
    decide_and_set_at_startup env w = (Ok tt, w')
    /\ svc w' = set_is_busy d (svc w)
    /\ emits [SetState d ok] w w'.
Proof.
  unfold decide_and_set_at_startup. rewrite gets_bind.
  destruct (calm_run w (Quiet_is_busy_soon env (lead_time (svc w)))
              (Total_is_busy_soon env (lead_time (svc w))))
    as (soon & w1 & E1 & S1 & T1).
  rewrite (bind_Ok _ E1).
  destruct (calm_run w1 (Quiet_is_currently_busy env)
              (Total_is_currently_busy env)) as (current & w2 & E2 & S2 & T2).
  rewrite (bind_Ok _ E2).
  assert (Hs : svc w2 = svc w) by congruence.
  destruct (fst soon || fst current).
  - set (w3 := with_svc (set_is_busy true) w2).
    destruct (set_state_spec env true w3) as (ok & w4 & E4 & S4 & T4).
    exists true, ok, w4. split.
    + unfold modify at 1. unfold bind at 1. fold w3. now rewrite (bind_Ok _ E4).
    + split; [rewrite S4; cbn; now rewrite Hs|].
      pose proof (emits_trans (emits_trans T1 T2)
                    (V2 := [SetState true ok]) (w3 := w4)) as H.
      apply H. destruct T4 as (T & ET & VT). now exists T.
  - set (w3 := with_svc (set_is_busy false) w2).
    destruct (set_state_spec env false w3) as (ok & w4 & E4 & S4 & T4).
    exists false, ok, w4. split.
    + unfold modify at 1. unfold bind at 1. fold w3. now rewrite (bind_Ok _ E4).
    + split; [rewrite S4; cbn; now rewrite Hs|].
      pose proof (emits_trans (emits_trans T1 T2)
                    (V2 := [SetState false ok]) (w3 := w4)) as H.
      apply H. destruct T4 as (T & ET & VT). now exists T.
Qed.

Lemma flash_keeps_svc (times : Z) (duration : Q) (w : world) :
  exists (r : bool) (w' : world) (V : list action),
    flash env times duration w = (Ok r, w')
    /\ svc w' = svc w /\ emits V w w'.
Proof.
  destruct (cloud (tuya w) || device (tuya w)) eqn:Hh.
  - destruct (flash_spec env times duration w Hh)
      as (r & w' & E & S1 & [(_ & V & _ & T)|(_ & m & V & _ & _ & T)]); eauto 8.
  - apply orb_false_elim in Hh. destruct Hh as [Hc Hd].
    exists false, w, []. split; [now apply flash_gives_up|].
    split; [reflexivity|apply emits_nil].
Qed.

Lemma Mirrors_startup_sequence : Mirrors (startup_sequence env).
Proof.
  intros w. unfold startup_sequence.
  destruct (calm_run w (Quiet_connect env) (Total_connect env))
    as (c & w1 & E1 & S1 & T1).
  rewrite (bind_Ok _ E1). destruct c; cbn [negb].
  - destruct (calm_run w1 (Quiet_authenticate env) (Total_authenticate env))
      as (a & w2 & E2 & S2 & T2).
    rewrite (bind_Ok _ E2). destruct a; cbn [negb].
    + destruct (flash_keeps_svc 3 1 w2) as (f & w3 & V3 & E3 & S3 & T3).
      rewrite (bind_Ok _ E3).
      destruct (decide_and_set_at_startup_spec w3)
        as (d & ok & w4 & E4 & S4 & T4).
      assert (E5 : try_except (decide_and_set_at_startup env)
                     (fun _ => modify (with_svc (set_is_busy false)) ;;
                               set_state env false ;; ret tt) w3 = (Ok tt, w4))
        by (unfold try_except; now rewrite E4).
      rewrite (bind_Ok _ E5). cbn [ret].
      exists true, w4, (([] ++ []) ++ V3 ++ [SetState d ok]).
      split; [reflexivity|].
      split; [exact (emits_trans (emits_trans T1 T2) (emits_trans T3 T4))|].
      rewrite S4. cbn [app is_busy set_is_busy].
      unfold last_write. rewrite device_writes_app. cbn [device_writes].
      now rewrite last_last.
    + cbn [ret]. exists false, w2, ([] ++ []).
      split; [reflexivity|]. split; [exact (emits_trans T1 T2)|].
      cbn. congruence.
  - cbn [ret]. exists false, w1, []. split; [reflexivity|].
    split; [exact T1|]. cbn. congruence.
Qed.

Lemma Mirrors_run (ticks : nat) : Mirrors (run env ticks).
Proof.
  unfold run. apply Mirrors_bind; [apply Mirrors_startup_sequence|].
  intros started. destruct started; cbn [negb].
  - apply Mirrors_bind; [apply Mirrors_start_heartbeat_monitor|]. intros _.
    apply Mirrors_bind; [apply Mirrors_emit_Log|]. intros _.
    apply Mirrors_bind;
      [apply Mirrors_calm; [apply Quiet_time_time|apply Total_time_time]|].
    intros now. apply Mirrors_bind; [|intros _; apply Mirrors_main_loop].
    destruct (Qlt_bool 1 (seconds_until_next_minute now)).
    + apply Mirrors_calm; [apply Quiet_sleep|apply Total_sleep].
    + apply Mirrors_calm; [apply Quiet_ret|apply Total_ret].
  - apply Mirrors_bind; [apply Mirrors_emit_Log|]. intros _.
    apply Mirrors_start_error_flash.
Qed.

End Mirror.

(** X13. When [run] returns, the tracked busy state is the last switch
    position the main thread asked of the device (its value from before
    when no write was asked for), whether or not the device accepted that
    write: the state is recorded before the write and the result of the
    write is not looked at. *)
Theorem tracked_state_is_the_last_write_asked_for :
  forall (env : oracle) (ticks : nat) (w w' : world) (V : list action),
    run env ticks w = (Ok tt, w') ->
    emits V w w' ->
    is_busy (svc w') = last_write V (is_busy (svc w)).
Proof.
  intros env ticks w w' V E T.
  destruct (@Mirrors_run env ticks w) as ([] & u & U & Eu & Tu & Mu).
  rewrite E in Eu. injection Eu as <-.
  now rewrite (emits_functional T Tu).
Qed.

Lemma tracked_state_is_the_last_write_asked_for_witness :
  let w' := snd (run meeting 2 boot) in
  is_busy (svc w') = last_write (visible (trace w')) (is_busy (svc boot)).
Proof.
  intros w'.
  apply (@tracked_state_is_the_last_write_asked_for meeting 2 boot w').
  - vm_compute. reflexivity.
  - exists (trace w'). split; vm_compute; reflexivity.
Defined.

(** ** No exception leaves the controller or the monitor *)

Lemma Runs_Total A (m : M A) : Runs m -> Total m.
Proof.
  intros H w. destruct (H w) as (a & w' & V & E & _). exists a. now rewrite E.
Qed.

Lemma Total_get_todays_events (env : oracle) : Total (get_todays_events env).
Proof. unfold get_todays_events. total. Qed.

Lemma Total_stop (env : oracle) : Total (stop env).
Proof.
  unfold stop, stop_error_flash, stop_heartbeat_monitor. total.
Qed.

(** X14. Whatever the device, the calendar and the network answer, no
    exception leaves [connect], [ensure_connection], [set_state], [flash]
    (with a pause that is not negative), [authenticate],
    [ensure_authenticated], [is_busy_soon], [is_currently_busy],
    [get_todays_events], [log_daily_events], [stop], or [wait_for_network]
    with a positive check interval that [time.sleep] accepts: each of them
    returns a value.  Nothing is stated of [wait_for_network] with another
    interval, whose pause is not guarded. *)
Theorem no_exception_leaves_the_components :
  forall env : oracle,
    Total (connect env)
    /\ Total (ensure_connection env)
    /\ (forall state, Total (set_state env state))
    /\ (forall times duration, 0 <= duration -> Total (flash env times duration))
    /\ Total (authenticate env)
    /\ Total (ensure_authenticated env)
    /\ (forall lead, Total (is_busy_soon env lead))
    /\ Total (is_currently_busy env)
    /\ Total (get_todays_events env)
    /\ Total (log_daily_events env)
    /\ (forall max_wait check_interval,
          0 < check_interval -> check_interval <= sleep_max ->
          Total (wait_for_network env max_wait check_interval))
    /\ Total (stop env).
Proof.
  intros env.
  split; [apply Total_connect|].
  split; [apply Total_ensure_connection|].
  split; [apply Total_set_state|].
  split; [intros times duration _; apply Runs_Total, Runs_flash|].
  split; [apply Total_authenticate|].
  split; [apply Total_ensure_authenticated|].
  split; [apply Total_is_busy_soon|].
  split; [apply Total_is_currently_busy|].
  split; [apply Total_get_todays_events|].
  split; [apply Total_log_daily_events|].
  split; [intros max_wait check_interval _ _; apply Total_wait_for_network
         |apply Total_stop].
Qed.

(** ** The two busy rules *)

Lemma nonempty_filter (X : Type) (f : X -> bool) (l : list X) :
  nonempty (filter f l) = true -> exists x, In x l /\ f x = true.
Proof.
  induction l as [|a l IH]; cbn; [discriminate|].
  destruct (f a) eqn:Fa.
  - intros _. exists a. auto.
  - intros H. destruct (IH H) as (x & Hin & Hx). exists x. auto.
Qed.

Lemma monitor_keeps_opaque (e : event) :
  well_marked e -> monitor_keeps e = true -> is_opaque e = true.
Proof.
  unfold monitor_keeps, is_opaque.
  intros [H|[H|H]]; rewrite H; [reflexivity|reflexivity|].
  destruct (start_ e); [|discriminate|discriminate].
  rewrite andb_comm. cbn. discriminate.
Qed.

(** X15. On events whose transparency marker is absent, "opaque" or
    "transparent", whenever the rule of [calendar_monitor.py] finds the
    list busy, so does the rule of [is_busy_soon]; an event the monitor
    counts has a start time of day, is not declined by the user and is not
    transparent. *)
Theorem monitor_busy_implies_light_busy :
  forall evs : list event,
    (forall e, In e evs -> well_marked e) ->
    monitor_is_busy evs = true ->
    fst (first_opaque evs) = true
    /\ exists e,
         In e evs
         /\ (exists t, start_ e = AtDateTime t)
         /\ self_response e <> Some "declined"%string
         /\ transparency e <> Some "transparent"%string.
Proof.
  intros evs Hm Hb. unfold monitor_is_busy in Hb.
  apply nonempty_filter in Hb. destruct Hb as (e & Hin & Hk).
  split.
  - apply first_opaque_busy_iff. exists e. split; [exact Hin|].
    now apply monitor_keeps_opaque; [apply Hm|].
  - exists e. split; [exact Hin|]. revert Hk. unfold monitor_keeps.
    destruct (start_ e) as [t| |]; [|discriminate|discriminate].
    intros Hk. apply andb_prop in Hk. destruct Hk as [Hd Ht].
    split; [now exists t|]. split.
    + intros Hs. rewrite Hs in Hd. discriminate Hd.
    + intros Hs. rewrite Hs in Ht. discriminate Ht.
Qed.

Lemma monitor_busy_implies_light_busy_witness :
  fst (first_opaque [lunch; standup]) = true
  /\ exists e,
       In e [lunch; standup]
       /\ (exists t, start_ e = AtDateTime t)
       /\ self_response e <> Some "declined"%string
       /\ transparency e <> Some "transparent"%string.
Proof.
  apply (@monitor_busy_implies_light_busy [lunch; standup]).
  - intros e [<-|[<-|[]]]; unfold well_marked; cbn; auto.
  - reflexivity.
Defined.

(** ** Authentication before every query *)

(** X16. When [ensure_authenticated] returns [True] (at a clock other than
    zero) a service object is in place and the authentication is not stale:
    the queries that follow never run without a service. *)
Theorem queries_run_with_a_service :
  forall (env : oracle) (w w' : world),
    ensure_authenticated env w = (Ok true, w') ->
    ~ clock w' == 0 ->
    service (calendar w') = true
    /\ auth_stale (calendar w') (clock w') = false.
Proof.
  intros env w w' H Hz.
  assert (C : forall u, authenticate env u = (Ok true, w') ->
              service (calendar w') = true
              /\ auth_stale (calendar w') (clock w') = false).
  { intros u Hu. destruct (@authenticate_marks env u w' Hu) as [Hs Hl].
    split; [exact Hs|].
    destruct (auth_stale (calendar w') (clock w')) eqn:E; [|reflexivity].
    apply (auth_stale_iff _ (clock w') Hs Hl Hz) in E.
    exfalso. revert E. now apply not_past. }
  revert H. unfold ensure_authenticated. rewrite gets_bind, time_time_bind.
  destruct (auth_stale (calendar w) (clock w)) eqn:Hf; [apply C|].
  assert (Hs : service (calendar w) = true).
  { revert Hf. unfold auth_stale. destruct (service (calendar w)); [reflexivity|].
    cbn. discriminate. }
  destruct (credentials (calendar w)).
  - unfold ask. unfold bind at 1. destruct (creds_expired env (calls w)).
    + apply C.
    + cbn. intros H. injection H as <-. cbn. auto.
  - cbn. intros H. injection H as <-. auto.
Qed.

Lemma queries_run_with_a_service_witness :
  let w' := snd (ensure_authenticated calm boot) in
  service (calendar w') = true /\ auth_stale (calendar w') (clock w') = false.
Proof.
  intros w'. apply (@queries_run_with_a_service calm boot w').
  - vm_compute. reflexivity.
  - vm_compute. discriminate.
Defined.

(** ** The query for the current moment *)

Lemma scan_current_same_zone (now : Q) (e : event) (w : world) :
  uniform_zone e ->
  scan_current now e w
  = (Ok (if is_current now e && is_opaque e
         then Some (true, Some (summary_or "Busy" e))
         else None), w).
Proof.
  intros (sd & ed & Hs & He & Htz).
  unfold scan_current, is_current, bind, lift, ret. rewrite Hs, He.
  unfold datetime_le. cbn [tz wall]. rewrite <- Htz.
  destruct (tz sd) as [o|].
  - rewrite !Qle_bool_shift.
    destruct (Qle_bool (wall sd) now); cbn; [|reflexivity].
    destruct (Qle_bool now (wall ed)); cbn; [|reflexivity].
    now destruct (is_opaque e).
  - destruct (Qle_bool (wall sd) now); cbn; [|reflexivity].
    destruct (Qle_bool now (wall ed)); cbn; [|reflexivity].
    now destruct (is_opaque e).
Qed.

Lemma scan_current_find (now : Q) (evs : list event) (w : world) :
  (forall e, In e evs -> uniform_zone e) ->
  for_each evs (scan_current now) w
  = (Ok (match find (fun e => is_current now e && is_opaque e) evs with
         | Some e => Some (true, Some (summary_or "Busy" e))
         | None => None
         end), w).
Proof.
  induction evs as [|e evs IH]; intros Hz; cbn [for_each find]; [reflexivity|].
  unfold bind.
  rewrite (@scan_current_same_zone now e w (Hz e (or_introl eq_refl))).
  destruct (is_current now e && is_opaque e); [reflexivity|].
  apply IH. intros x Hx. apply Hz. now right.
Qed.

(** X17. Once authenticated, for every event list the calendar returns for
    the current instant whose events carry one UTC offset each (or none),
    [is_currently_busy] reports busy exactly when some event of the list is
    opaque and going on by its wall-clock readings, with the title of the
    first such event ("Busy" when it has none). *)
Theorem currently_busy_is_decided_by_the_first_current_event :
  forall (env : oracle) (w w1 : world) (evs : list event),
    ensure_authenticated env w = (Ok true, w1) ->
    events_list env (calls w1) (clock w1) (clock w1) = Ok evs ->
    (forall e, In e evs -> uniform_zone e) ->
    is_currently_busy env w
    = (Ok (first_current (clock w1) evs), with_calls S w1)
    /\ (fst (first_current (clock w1) evs) = true
        <-> exists e, In e evs /\ is_current (clock w1) e = true
                      /\ is_opaque e = true).
Proof.
  intros env w w1 evs Ha Hev Hz. split.
  - unfold is_currently_busy. rewrite (bind_Ok _ Ha). cbn [negb].
    unfold try_except.
    rewrite (@retry_first_try env _ (_check_currently_busy env) 3 1 60 w1
               (with_calls S w1) (first_current (clock w1) evs));
      [reflexivity|lia|].
    unfold _check_currently_busy. rewrite time_time_bind.
    unfold ask. unfold bind at 1. rewrite Hev.
    unfold bind.
    rewrite (@scan_current_find (clock w1) evs (with_calls S w1) Hz).
    unfold first_current.
    now destruct (find (fun e => is_current (clock w1) e && is_opaque e) evs).
  - unfold first_current.
    destruct (find (fun e => is_current (clock w1) e && is_opaque e) evs)
      as [e|] eqn:E; cbn.
    + split; [|reflexivity]. intros _. apply find_some in E.
      destruct E as [Hin Hb]. apply andb_prop in Hb. exists e. tauto.
    + split; [discriminate|]. intros (e & Hin & Hc & Ho).
      pose proof (find_none _ _ E e Hin) as Hn. cbn in Hn.
      rewrite Hc, Ho in Hn. discriminate Hn.
Qed.

Lemma currently_busy_is_decided_by_the_first_current_event_witness :
  is_currently_busy leisurely linked
  = (Ok (first_current (clock (snd (ensure_authenticated leisurely linked)))
           [lunch]),
     with_calls S (snd (ensure_authenticated leisurely linked)))
  /\ (fst (first_current (clock (snd (ensure_authenticated leisurely linked)))
             [lunch]) = true
      <-> exists e, In e [lunch]
                    /\ is_current
                         (clock (snd (ensure_authenticated leisurely linked))) e
                       = true
                    /\ is_opaque e = true).
Proof.
  apply (@currently_busy_is_decided_by_the_first_current_event leisurely linked
           (snd (ensure_authenticated leisurely linked)) [lunch]).
  - vm_compute. reflexivity.
  - reflexivity.
  - intros e [<-|[]]. unfold uniform_zone. cbn. eauto.
Defined.
